(** * The extension-host protocol (vs/workbench/api/node/extHost.protocol.ts)

  A shallow embedding of the protocol file: the two identity helpers
  [ObjectIdentifier] and [IdObject], which are the only executable code of
  the file, over a small model of JavaScript objects; the declared
  capability shapes as data; and the two proxy-identifier tables
  [MainContext] and [ExtHostContext]. *)

From Stdlib Require Import ZArith Lia.
From stdpp Require Import base gmap strings list fin_maps sets.

Local Open Scope Z_scope.

(** ** JavaScript objects

  Plain data objects, as they cross the process boundary: own data
  properties with their attributes, and the [[Extensible]] flag. Accessor
  properties and the prototype chain are not part of the model (the
  prototype of a plain object defines neither [$ident] nor [_id]).
  Properties are kept by name: the order in which they were created, which
  enumeration follows, is not part of the model, and no statement below
  speaks of it. Integer-valued numbers are carried as [Z]. *)

Module Js.

Definition loc := positive.

Inductive value :=
| undefined
| null
| boolean (b : bool)
| number (z : Z)
| str (s : string)
| ref (l : loc).

#[global] Instance value_eq_dec : EqDecision value.
Proof. solve_decision. Defined.

(** A data property: its [[Value]] and the three attributes. *)
Record property := Property {
  p_value : value;
  p_writable : bool;
  p_enumerable : bool;
  p_configurable : bool
}.

#[global] Instance property_eq_dec : EqDecision property.
Proof. solve_decision. Defined.

Record obj := Obj {
  props : gmap string property;
  extensible : bool
}.

(** A property descriptor as passed to [Object.defineProperty]: every
    field may be absent. *)
Record descriptor := Descriptor {
  d_value : option value;
  d_writable : option bool;
  d_enumerable : option bool;
  d_configurable : option bool
}.

(** Completion of a call: a normal return or a thrown [TypeError]. *)
Inductive outcome (A : Type) :=
| Ok (a : A)
| TypeError.
Arguments Ok {A} a.
Arguments TypeError {A}.

#[global] Instance outcome_eq_dec `{EqDecision A} : EqDecision (outcome A).
Proof. solve_decision. Defined.

(** The object a plain literal [{}] evaluates to. *)
Definition empty_obj : obj := Obj ∅ true.

(** A property created by assignment or by an object literal. *)
Definition plain (v : value) : property := Property v true true true.

(** [o[k]]: the value of own property [k], [undefined] when absent. *)
Definition get (o : obj) (k : string) : value :=
  match props o !! k with
  | Some p => p_value p
  | None => undefined
  end.

(** [o[k] = v] in strict mode: a new property needs an extensible object,
    an existing one must be writable, otherwise a TypeError is thrown. *)
Definition assign (o : obj) (k : string) (v : value) : outcome obj :=
  match props o !! k with
  | Some p =>
      if p_writable p
      then Ok (Obj (<[k := Property v true (p_enumerable p) (p_configurable p)]> (props o))
                   (extensible o))
      else TypeError
  | None =>
      if extensible o
      then Ok (Obj (<[k := plain v]> (props o)) (extensible o))
      else TypeError
  end.

(** Does descriptor field [f] ask for something else than [cur]? *)
Definition differs {A} `{EqDecision A} (f : option A) (cur : A) : bool :=
  match f with
  | Some a => bool_decide (a ≠ cur)
  | None => false
  end.

(** The property that results from applying [d] on top of [cur]. *)
Definition apply_descriptor (d : descriptor) (cur : property) : property :=
  Property (default (p_value cur) (d_value d))
           (default (p_writable cur) (d_writable d))
           (default (p_enumerable cur) (d_enumerable d))
           (default (p_configurable cur) (d_configurable d)).

(** [Object.defineProperty(o, k, d)] for data descriptors
    (ValidateAndApplyPropertyDescriptor): absent fields of a new property
    default to [undefined] and [false]; a non-configurable property
    refuses a change of its attributes, and of its value when it is not
    writable either. A refusal throws a TypeError. *)
Definition defineProperty (o : obj) (k : string) (d : descriptor) : outcome obj :=
  match props o !! k with
  | None =>
      if extensible o
      then Ok (Obj (<[k := apply_descriptor d (Property undefined false false false)]> (props o))
                   (extensible o))
      else TypeError
  | Some cur =>
      if negb (p_configurable cur)
         && (bool_decide (d_configurable d = Some true)
             || differs (d_enumerable d) (p_enumerable cur))
      then TypeError
      else if negb (p_configurable cur) && negb (p_writable cur)
              && (bool_decide (d_writable d = Some true)
                  || differs (d_value d) (p_value cur))
      then TypeError
      else Ok (Obj (<[k := apply_descriptor d cur]> (props o)) (extensible o))
  end.

(** [Object.keys(o)]: the names of the enumerable own properties, which is
    also what [for .. in] and [JSON.stringify] visit. *)
Definition keys (o : obj) : gset string :=
  dom (filter (λ kp, p_enumerable kp.2 = true) (props o)).

(** The heap: objects are reached through references and mutated in
    place. *)
Abbreviation heap := (gmap loc obj).

(** Mutation of the object at [l] by [f]; a reference that does not name an
    object cannot take properties. *)
Definition update (f : obj → outcome obj) (l : loc) (h : heap) : outcome heap :=
  match h !! l with
  | Some o =>
      match f o with
      | Ok o' => Ok (<[l := o']> h)
      | TypeError => TypeError
      end
  | None => TypeError
  end.

(** Reading [l[k]] in heap [h]. *)
Definition read (h : heap) (l : loc) (k : string) : value :=
  match h !! l with
  | Some o => get o k
  | None => undefined
  end.

End Js.

Import Js.

(** ** namespace ObjectIdentifier *)

Module ObjectIdentifier.

Definition name : string := "$ident".

(** [Object.defineProperty(obj, name, { value: id, enumerable: true });
    return obj;] *)
Definition mixin (obj : loc) (id : Z) (h : heap) : outcome loc * heap :=
  match update (λ o, defineProperty o name
                       (Descriptor (Some (number id)) None (Some true) None)) obj h with
  | Ok h' => (Ok obj, h')
  | TypeError => (TypeError, h)
  end.

(** [return obj[name];] The function [of] of the source; the name is a
    reserved word here. *)
Definition of_ (obj : loc) (h : heap) : value := read h obj name.

End ObjectIdentifier.

(** ** namespace IdObject *)

Module IdObject.

(** The module state: the heap and the namespace-level counter [n]. *)
Record state := State {
  objects : heap;
  n : Z
}.

(** [let n = 0;] *)
Definition n_init : Z := 0.

(** Numbers are IEEE doubles: integers are exact up to [2^53]. *)
Definition MAX_EXACT : Z := 2 ^ 53.

(** The value [n + 1] stored back by [n++]. The counter starts at [0] and
    changes only here, so it stays within [0 .. 2^53]; there the double
    sum is [n + 1] below [2^53], and [2^53 + 1] rounds back to [2^53]. *)
Definition increment (n : Z) : Z :=
  if n <? MAX_EXACT then n + 1 else n.

(** [(<any>object)._id = n++; return <any>object;]
    The right-hand side is evaluated, and the counter advanced, before the
    assignment is attempted. *)
Definition mixin (object : loc) (σ : state) : outcome loc * state :=
  let id := n σ in
  let n' := increment (n σ) in
  match update (λ o, assign o "_id" (number id)) object (objects σ) with
  | Ok h' => (Ok object, State h' n')
  | TypeError => (TypeError, State (objects σ) n')
  end.

(** The field [_id] of interface [IdObject], read through a reference. *)
Definition _id (object : loc) (σ : state) : value := read (objects σ) object "_id".

(** A process lifetime, as far as this namespace is concerned: calls of
    [mixin] one after the other, each with its own completion. *)
Fixpoint run (calls : list loc) (σ : state) : list (outcome loc) * state :=
  match calls with
  | [] => ([], σ)
  | object :: calls' =>
      let '(r, σ1) := mixin object σ in
      let '(rs, σ2) := run calls' σ1 in
      (r :: rs, σ2)
  end.

(** An object that already carries a writable [_id]: the assignment of
    [mixin] cannot throw on it. *)
Definition stampable (object : loc) (σ : state) : Prop :=
  ∃ ob p, objects σ !! object = Some ob ∧ props ob !! "_id" = Some p
          ∧ p_writable p = true.

(** The objects [os] carry pairwise different identities in [σ]. *)
Definition unique_ids (os : list loc) (σ : state) : Prop :=
  ∀ o1 o2, o1 ∈ os → o2 ∈ os → o1 ≠ o2 → _id o1 σ ≠ _id o2 σ.

(** The same, asked only of objects of one category. *)
Definition unique_ids_within {C} (category : loc → C) (os : list loc) (σ : state)
  : Prop :=
  ∀ o1 o2, o1 ∈ os → o2 ∈ os → o1 ≠ o2 → category o1 = category o2 →
           _id o1 σ ≠ _id o2 σ.

(** The objects a run has stamped: those of its calls that returned. *)
Definition stamped (rs : list (outcome loc)) : list loc :=
  omap (λ r, match r with Ok o => Some o | TypeError => None end) rs.

End IdObject.

(** ** The capability shapes

  An interface declaration of the protocol file as data: its name, the
  interfaces it extends and the operations it declares, each with its
  parameters (name and type as written, a trailing [?] marking an optional
  parameter and a leading [...] a rest parameter) and its declared
  result. The type parameters of a generic operation are not kept. *)

Module Protocol.

(** The declared result of an operation: [void], or a deferred result
    [TPromise<..>] or [Thenable<..>] with its type argument as written. *)
Inductive result :=
| Void
| TPromise (arg : string)
| Thenable (arg : string).

#[global] Instance result_eq_dec : EqDecision result.
Proof. solve_decision. Defined.

Record operation := Operation {
  op_name : string;
  op_params : list (string * string);
  op_result : result
}.

#[global] Instance operation_eq_dec : EqDecision operation.
Proof. solve_decision. Defined.

#[local] Unset Elimination Schemes.
Inductive shape := Shape {
  shape_name : string;
  extends : list shape;
  operations : list operation
}.
#[local] Set Elimination Schemes.

(** Modelled from the spec: [IDisposable] is imported from
    vs/base/common/lifecycle, which is not part of the file; the spec has
    it as a resource with an explicit release operation. *)
Definition IDisposable : shape :=
  Shape "IDisposable" [] [Operation "dispose" [] Void].

(** Modelled from the spec: [ProxyIdentifier] and its two constructors are
    imported from vs/workbench/services/thread/common/threadService, which
    is not part of the file; the spec has an identifier as a name and a
    side, [Host] or [Extension]. *)
Inductive side := Host | Extension.

#[global] Instance side_eq_dec : EqDecision side.
Proof. solve_decision. Defined.

(** Modelled from the spec: "ProxyIdentifier: {name: string, side:
    Host|Extension}", with the shape it stands for. *)
Record ProxyIdentifier := {
  name : string;
  origin : side;
  T : shape
}.

(** Modelled from the spec: [createMainContextProxyIdentifier], imported as
    [createMainId], registers a name on the host side. *)
Definition createMainId (T : shape) (identifier : string) : ProxyIdentifier :=
  {| name := identifier; origin := Host; T := T |}.

(** Modelled from the spec: [createExtHostContextProxyIdentifier], imported
    as [createExtId], registers a name on the extension side. *)
Definition createExtId (T : shape) (identifier : string) : ProxyIdentifier :=
  {| name := identifier; origin := Extension; T := T |}.

(** *** main thread *)

Definition MainThreadCommandsShape : shape :=
  Shape "MainThreadCommandsShape" [IDisposable] [
    Operation "$registerCommand" [("id", "string")] (TPromise "any");
    Operation "$unregisterCommand" [("id", "string")] (TPromise "any");
    Operation "$executeCommand" [("id", "string"); ("args", "any[]")] (Thenable "T");
    Operation "$getCommands" [] (Thenable "string[]")
  ].

Definition MainThreadConfigurationShape : shape :=
  Shape "MainThreadConfigurationShape" [IDisposable] [
    Operation "$updateConfigurationOption"
      [("target", "ConfigurationTarget");
       ("key", "string");
       ("value", "any");
       ("resource", "URI")]
      (TPromise "void");
    Operation "$removeConfigurationOption"
      [("target", "ConfigurationTarget");
       ("key", "string");
       ("resource", "URI")]
      (TPromise "void")
  ].

Definition MainThreadDiagnosticsShape : shape :=
  Shape "MainThreadDiagnosticsShape" [IDisposable] [
    Operation "$changeMany"
      [("owner", "string");
       ("entries", "[URI, IMarkerData[]][]")]
      (TPromise "any");
    Operation "$clear" [("owner", "string")] (TPromise "any")
  ].

Definition MainThreadDiaglogsShape : shape :=
  Shape "MainThreadDiaglogsShape" [IDisposable] [
    Operation "$showOpenDialog"
      [("options", "MainThreadDialogOpenOptions")]
      (TPromise "string[]");
    Operation "$showSaveDialog"
      [("options", "MainThreadDialogSaveOptions")]
      (TPromise "string")
  ].

Definition MainThreadDecorationsShape : shape :=
  Shape "MainThreadDecorationsShape" [IDisposable] [
    Operation "$registerDecorationProvider" [("handle", "number"); ("label", "string")] Void;
    Operation "$unregisterDecorationProvider" [("handle", "number")] Void;
    Operation "$onDidChange" [("handle", "number"); ("resources", "URI[]")] Void
  ].

Definition MainThreadDocumentContentProvidersShape : shape :=
  Shape "MainThreadDocumentContentProvidersShape" [IDisposable] [
    Operation "$registerTextContentProvider" [("handle", "number"); ("scheme", "string")] Void;
    Operation "$unregisterTextContentProvider" [("handle", "number")] Void;
    Operation "$onVirtualDocumentChange" [("uri", "URI"); ("value", "ITextSource")] Void
  ].

Definition MainThreadDocumentsShape : shape :=
  Shape "MainThreadDocumentsShape" [IDisposable] [
    Operation "$tryCreateDocument"
      [("options?", "{ language?: string; content?: string; }")]
      (TPromise "any");
    Operation "$tryOpenDocument" [("uri", "URI")] (TPromise "any");
    Operation "$trySaveDocument" [("uri", "URI")] (TPromise "boolean")
  ].

Definition MainThreadEditorsShape : shape :=
  Shape "MainThreadEditorsShape" [IDisposable] [
    Operation "$tryShowTextDocument"
      [("resource", "URI");
       ("options", "ITextDocumentShowOptions")]
      (TPromise "string");
    Operation "$registerTextEditorDecorationType"
      [("key", "string");
       ("options", "editorCommon.IDecorationRenderOptions")]
      Void;
    Operation "$removeTextEditorDecorationType" [("key", "string")] Void;
    Operation "$tryShowEditor"
      [("id", "string");
       ("position", "EditorPosition")]
      (TPromise "void");
    Operation "$tryHideEditor" [("id", "string")] (TPromise "void");
    Operation "$trySetOptions"
      [("id", "string");
       ("options", "ITextEditorConfigurationUpdate")]
      (TPromise "any");
    Operation "$trySetDecorations"
      [("id", "string");
       ("key", "string");
       ("ranges", "editorCommon.IDecorationOptions[]")]
      (TPromise "any");
    Operation "$trySetDecorationsFast"
      [("id", "string");
       ("key", "string");
       ("ranges", "string")]
      (TPromise "any");
    Operation "$tryRevealRange"
      [("id", "string");
       ("range", "IRange");
       ("revealType", "TextEditorRevealType")]
      (TPromise "any");
    Operation "$trySetSelections"
      [("id", "string");
       ("selections", "ISelection[]")]
      (TPromise "any");
    Operation "$tryApplyEdits"
      [("id", "string");
       ("modelVersionId", "number");
       ("edits", "editorCommon.ISingleEditOperation[]");
       ("opts", "IApplyEditsOptions")]
      (TPromise "boolean");
    Operation "$tryApplyWorkspaceEdit"
      [("workspaceResourceEdits", "IWorkspaceResourceEdit[]")]
      (TPromise "boolean");
    Operation "$tryInsertSnippet"
      [("id", "string");
       ("template", "string");
       ("selections", "IRange[]");
       ("opts", "IUndoStopOptions")]
      (TPromise "any");
    Operation "$getDiffInformation" [("id", "string")] (TPromise "editorCommon.ILineChange[]")
  ].

Definition MainThreadTreeViewsShape : shape :=
  Shape "MainThreadTreeViewsShape" [IDisposable] [
    Operation "$registerView" [("treeViewId", "string")] Void;
    Operation "$refresh" [("treeViewId", "string"); ("treeItemHandles", "number[]")] Void
  ].

Definition MainThreadErrorsShape : shape :=
  Shape "MainThreadErrorsShape" [IDisposable] [
    Operation "$onUnexpectedError"
      [("err", "any | SerializedError");
       ("extensionId", "string | undefined")]
      Void
  ].

Definition MainThreadLanguageFeaturesShape : shape :=
  Shape "MainThreadLanguageFeaturesShape" [IDisposable] [
    Operation "$unregister" [("handle", "number")] (TPromise "any");
    Operation "$registerOutlineSupport"
      [("handle", "number");
       ("selector", "vscode.DocumentSelector")]
      (TPromise "any");
    Operation "$registerCodeLensSupport"
      [("handle", "number");
       ("selector", "vscode.DocumentSelector");
       ("eventHandle", "number")]
      (TPromise "any");
    Operation "$emitCodeLensEvent"
      [("eventHandle", "number");
       ("event?", "any")]
      (TPromise "any");
    Operation "$registerDeclaractionSupport"
      [("handle", "number");
       ("selector", "vscode.DocumentSelector")]
      (TPromise "any");
    Operation "$registerImplementationSupport"
      [("handle", "number");
       ("selector", "vscode.DocumentSelector")]
      (TPromise "any");
    Operation "$registerTypeDefinitionSupport"
      [("handle", "number");
       ("selector", "vscode.DocumentSelector")]
      (TPromise "any");
    Operation "$registerHoverProvider"
      [("handle", "number");
       ("selector", "vscode.DocumentSelector")]
      (TPromise "any");
    Operation "$registerDocumentHighlightProvider"
      [("handle", "number");
       ("selector", "vscode.DocumentSelector")]
      (TPromise "any");
    Operation "$registerReferenceSupport"
      [("handle", "number");
       ("selector", "vscode.DocumentSelector")]
      (TPromise "any");
    Operation "$registerQuickFixSupport"
      [("handle", "number");
       ("selector", "vscode.DocumentSelector")]
      (TPromise "any");
    Operation "$registerDocumentFormattingSupport"
      [("handle", "number");
       ("selector", "vscode.DocumentSelector")]
      (TPromise "any");
    Operation "$registerRangeFormattingSupport"
      [("handle", "number");
       ("selector", "vscode.DocumentSelector")]
      (TPromise "any");
    Operation "$registerOnTypeFormattingSupport"
      [("handle", "number");
       ("selector", "vscode.DocumentSelector");
       ("autoFormatTriggerCharacters", "string[]")]
      (TPromise "any");
    Operation "$registerNavigateTypeSupport" [("handle", "number")] (TPromise "any");
    Operation "$registerRenameSupport"
      [("handle", "number");
       ("selector", "vscode.DocumentSelector")]
      (TPromise "any");
    Operation "$registerSuggestSupport"
      [("handle", "number");
       ("selector", "vscode.DocumentSelector");
       ("triggerCharacters", "string[]");
       ("supportsResolveDetails", "boolean")]
      (TPromise "any");
    Operation "$registerSignatureHelpProvider"
      [("handle", "number");
       ("selector", "vscode.DocumentSelector");
       ("triggerCharacter", "string[]")]
      (TPromise "any");
    Operation "$registerDocumentLinkProvider"
      [("handle", "number");
       ("selector", "vscode.DocumentSelector")]
      (TPromise "any");
    Operation "$registerDocumentColorProvider"
      [("handle", "number");
       ("selector", "vscode.DocumentSelector")]
      (TPromise "any");
    Operation "$setLanguageConfiguration"
      [("handle", "number");
       ("languageId", "string");
       ("configuration", "vscode.LanguageConfiguration")]
      (TPromise "any")
  ].

Definition MainThreadLanguagesShape : shape :=
  Shape "MainThreadLanguagesShape" [IDisposable] [
    Operation "$getLanguages" [] (TPromise "string[]")
  ].

Definition MainThreadMessageServiceShape : shape :=
  Shape "MainThreadMessageServiceShape" [IDisposable] [
    Operation "$showMessage"
      [("severity", "Severity");
       ("message", "string");
       ("options", "MainThreadMessageOptions");
       ("commands", "{ title: string; isCloseAffordance: boolean; handle: number; }[]")]
      (Thenable "number")
  ].

Definition MainThreadOutputServiceShape : shape :=
  Shape "MainThreadOutputServiceShape" [IDisposable] [
    Operation "$append"
      [("channelId", "string");
       ("label", "string");
       ("value", "string")]
      (TPromise "void");
    Operation "$clear" [("channelId", "string"); ("label", "string")] (TPromise "void");
    Operation "$dispose" [("channelId", "string"); ("label", "string")] (TPromise "void");
    Operation "$reveal"
      [("channelId", "string");
       ("label", "string");
       ("preserveFocus", "boolean")]
      (TPromise "void");
    Operation "$close" [("channelId", "string")] (TPromise "void")
  ].

Definition MainThreadProgressShape : shape :=
  Shape "MainThreadProgressShape" [IDisposable] [
    Operation "$startProgress" [("handle", "number"); ("options", "IProgressOptions")] Void;
    Operation "$progressReport" [("handle", "number"); ("message", "IProgressStep")] Void;
    Operation "$progressEnd" [("handle", "number")] Void
  ].

Definition MainThreadTerminalServiceShape : shape :=
  Shape "MainThreadTerminalServiceShape" [IDisposable] [
    Operation "$createTerminal"
      [("name?", "string");
       ("shellPath?", "string");
       ("shellArgs?", "string[]");
       ("env?", "{ [key: string]: string }");
       ("waitOnExit?", "boolean")]
      (TPromise "number");
    Operation "$dispose" [("terminalId", "number")] Void;
    Operation "$hide" [("terminalId", "number")] Void;
    Operation "$sendText"
      [("terminalId", "number");
       ("text", "string");
       ("addNewLine", "boolean")]
      Void;
    Operation "$show" [("terminalId", "number"); ("preserveFocus", "boolean")] Void
  ].

Definition MainThreadQuickOpenShape : shape :=
  Shape "MainThreadQuickOpenShape" [IDisposable] [
    Operation "$show" [("options", "IPickOptions")] (TPromise "number");
    Operation "$setItems" [("items", "MyQuickPickItems[]")] (TPromise "any");
    Operation "$setError" [("error", "Error")] (TPromise "any");
    Operation "$input"
      [("options", "vscode.InputBoxOptions");
       ("validateInput", "boolean")]
      (TPromise "string")
  ].

Definition MainThreadStatusBarShape : shape :=
  Shape "MainThreadStatusBarShape" [IDisposable] [
    Operation "$setEntry"
      [("id", "number");
       ("extensionId", "string");
       ("text", "string");
       ("tooltip", "string");
       ("command", "string");
       ("color", "string | ThemeColor");
       ("alignment", "MainThreadStatusBarAlignment");
       ("priority", "number")]
      Void;
    Operation "$dispose" [("id", "number")] Void
  ].

Definition MainThreadStorageShape : shape :=
  Shape "MainThreadStorageShape" [IDisposable] [
    Operation "$getValue" [("shared", "boolean"); ("key", "string")] (TPromise "T");
    Operation "$setValue"
      [("shared", "boolean");
       ("key", "string");
       ("value", "any")]
      (TPromise "any")
  ].

Definition MainThreadTelemetryShape : shape :=
  Shape "MainThreadTelemetryShape" [IDisposable] [
    Operation "$publicLog" [("eventName", "string"); ("data?", "any")] Void
  ].

Definition MainThreadWorkspaceShape : shape :=
  Shape "MainThreadWorkspaceShape" [IDisposable] [
    Operation "$startSearch"
      [("include", "string | IRelativePattern");
       ("exclude", "string | IRelativePattern");
       ("maxResults", "number");
       ("requestId", "number")]
      (Thenable "URI[]");
    Operation "$cancelSearch" [("requestId", "number")] (Thenable "boolean");
    Operation "$saveAll" [("includeUntitled?", "boolean")] (Thenable "boolean")
  ].

Definition MainThreadFileSystemShape : shape :=
  Shape "MainThreadFileSystemShape" [IDisposable] [
    Operation "$registerFileSystemProvider" [("handle", "number"); ("scheme", "string")] Void;
    Operation "$unregisterFileSystemProvider" [("handle", "number")] Void;
    Operation "$onDidAddFileSystemRoot" [("root", "URI")] Void;
    Operation "$onFileSystemChange" [("handle", "number"); ("resource", "IFileChange[]")] Void;
    Operation "$reportFileChunk"
      [("handle", "number");
       ("resource", "URI");
       ("chunk", "number[] | null")]
      Void;
    Operation "$handleSearchProgress"
      [("handle", "number");
       ("session", "number");
       ("resource", "URI")]
      Void
  ].

Definition MainThreadTaskShape : shape :=
  Shape "MainThreadTaskShape" [IDisposable] [
    Operation "$registerTaskProvider" [("handle", "number")] (TPromise "any");
    Operation "$unregisterTaskProvider" [("handle", "number")] (TPromise "any")
  ].

Definition MainThreadExtensionServiceShape : shape :=
  Shape "MainThreadExtensionServiceShape" [IDisposable] [
    Operation "$localShowMessage" [("severity", "Severity"); ("msg", "string")] Void;
    Operation "$onExtensionActivated"
      [("extensionId", "string");
       ("startup", "boolean");
       ("codeLoadingTime", "number");
       ("activateCallTime", "number");
       ("activateResolvedTime", "number")]
      Void;
    Operation "$onExtensionActivationFailed" [("extensionId", "string")] Void
  ].

Definition MainThreadSCMShape : shape :=
  Shape "MainThreadSCMShape" [IDisposable] [
    Operation "$registerSourceControl"
      [("handle", "number");
       ("id", "string");
       ("label", "string");
       ("rootUri", "string | undefined")]
      Void;
    Operation "$updateSourceControl"
      [("handle", "number");
       ("features", "SCMProviderFeatures")]
      Void;
    Operation "$unregisterSourceControl" [("handle", "number")] Void;
    Operation "$registerGroup"
      [("sourceControlHandle", "number");
       ("handle", "number");
       ("id", "string");
       ("label", "string")]
      Void;
    Operation "$updateGroup"
      [("sourceControlHandle", "number");
       ("handle", "number");
       ("features", "SCMGroupFeatures")]
      Void;
    Operation "$updateGroupLabel"
      [("sourceControlHandle", "number");
       ("handle", "number");
       ("label", "string")]
      Void;
    Operation "$unregisterGroup"
      [("sourceControlHandle", "number");
       ("handle", "number")]
      Void;
    Operation "$spliceResourceStates"
      [("sourceControlHandle", "number");
       ("splices", "SCMRawResourceSplices[]")]
      Void;
    Operation "$setInputBoxValue"
      [("sourceControlHandle", "number");
       ("value", "string")]
      Void;
    Operation "$setInputBoxPlaceholder"
      [("sourceControlHandle", "number");
       ("placeholder", "string")]
      Void
  ].

Definition MainThreadDebugServiceShape : shape :=
  Shape "MainThreadDebugServiceShape" [IDisposable] [
    Operation "$registerDebugConfigurationProvider"
      [("type", "string");
       ("hasProvideMethod", "boolean");
       ("hasResolveMethod", "boolean");
       ("handle", "number")]
      (TPromise "any");
    Operation "$unregisterDebugConfigurationProvider" [("handle", "number")] (TPromise "any");
    Operation "$startDebugging"
      [("folder", "URI | undefined");
       ("nameOrConfig", "string | vscode.DebugConfiguration")]
      (TPromise "boolean");
    Operation "$customDebugAdapterRequest"
      [("id", "DebugSessionUUID");
       ("command", "string");
       ("args", "any")]
      (TPromise "any");
    Operation "$appendDebugConsole" [("value", "string")] (TPromise "any")
  ].

Definition MainThreadWindowShape : shape :=
  Shape "MainThreadWindowShape" [IDisposable] [
    Operation "$getWindowVisibility" [] (TPromise "boolean")
  ].

(** *** extension host *)

Definition ExtHostCommandsShape : shape :=
  Shape "ExtHostCommandsShape" [] [
    Operation "$executeContributedCommand"
      [("id", "string");
       ("...args", "any[]")]
      (Thenable "T");
    Operation "$getContributedCommandHandlerDescriptions"
      []
      (TPromise "{ [id: string]: string | ICommandHandlerDescription }")
  ].

Definition ExtHostConfigurationShape : shape :=
  Shape "ExtHostConfigurationShape" [] [
    Operation "$acceptConfigurationChanged"
      [("data", "IConfigurationData");
       ("eventData", "IWorkspaceConfigurationChangeEventData")]
      Void
  ].

Definition ExtHostDiagnosticsShape : shape :=
  Shape "ExtHostDiagnosticsShape" [] [

  ].

Definition ExtHostDocumentContentProvidersShape : shape :=
  Shape "ExtHostDocumentContentProvidersShape" [] [
    Operation "$provideTextDocumentContent"
      [("handle", "number");
       ("uri", "URI")]
      (TPromise "string")
  ].

Definition ExtHostDocumentsShape : shape :=
  Shape "ExtHostDocumentsShape" [] [
    Operation "$acceptModelModeChanged"
      [("strURL", "string");
       ("oldModeId", "string");
       ("newModeId", "string")]
      Void;
    Operation "$acceptModelSaved" [("strURL", "string")] Void;
    Operation "$acceptDirtyStateChanged" [("strURL", "string"); ("isDirty", "boolean")] Void;
    Operation "$acceptModelChanged"
      [("strURL", "string");
       ("e", "IModelChangedEvent");
       ("isDirty", "boolean")]
      Void
  ].

Definition ExtHostDocumentSaveParticipantShape : shape :=
  Shape "ExtHostDocumentSaveParticipantShape" [] [
    Operation "$participateInSave"
      [("resource", "URI");
       ("reason", "SaveReason")]
      (TPromise "boolean[]")
  ].

Definition ExtHostEditorsShape : shape :=
  Shape "ExtHostEditorsShape" [] [
    Operation "$acceptOptionsChanged"
      [("id", "string");
       ("opts", "IResolvedTextEditorConfiguration")]
      Void;
    Operation "$acceptSelectionsChanged"
      [("id", "string");
       ("event", "ISelectionChangeEvent")]
      Void;
    Operation "$acceptEditorPositionData" [("data", "ITextEditorPositionData")] Void
  ].

Definition ExtHostDocumentsAndEditorsShape : shape :=
  Shape "ExtHostDocumentsAndEditorsShape" [] [
    Operation "$acceptDocumentsAndEditorsDelta" [("delta", "IDocumentsAndEditorsDelta")] Void
  ].

Definition ExtHostTreeViewsShape : shape :=
  Shape "ExtHostTreeViewsShape" [] [
    Operation "$getElements" [("treeViewId", "string")] (TPromise "ITreeItem[]");
    Operation "$getChildren"
      [("treeViewId", "string");
       ("treeItemHandle", "number")]
      (TPromise "ITreeItem[]")
  ].

Definition ExtHostWorkspaceShape : shape :=
  Shape "ExtHostWorkspaceShape" [] [
    Operation "$acceptWorkspaceData" [("workspace", "IWorkspaceData")] Void
  ].

Definition ExtHostFileSystemShape : shape :=
  Shape "ExtHostFileSystemShape" [] [
    Operation "$utimes"
      [("handle", "number");
       ("resource", "URI");
       ("mtime", "number");
       ("atime", "number")]
      (TPromise "IStat");
    Operation "$stat" [("handle", "number"); ("resource", "URI")] (TPromise "IStat");
    Operation "$read"
      [("handle", "number");
       ("offset", "number");
       ("count", "number");
       ("resource", "URI")]
      (TPromise "number");
    Operation "$write"
      [("handle", "number");
       ("resource", "URI");
       ("content", "number[]")]
      (TPromise "void");
    Operation "$unlink" [("handle", "number"); ("resource", "URI")] (TPromise "void");
    Operation "$move"
      [("handle", "number");
       ("resource", "URI");
       ("target", "URI")]
      (TPromise "IStat");
    Operation "$mkdir" [("handle", "number"); ("resource", "URI")] (TPromise "IStat");
    Operation "$readdir"
      [("handle", "number");
       ("resource", "URI")]
      (TPromise "[URI, IStat][]");
    Operation "$rmdir" [("handle", "number"); ("resource", "URI")] (TPromise "void");
    Operation "$fileFiles"
      [("handle", "number");
       ("session", "number");
       ("query", "string")]
      (TPromise "void")
  ].

Definition ExtHostExtensionServiceShape : shape :=
  Shape "ExtHostExtensionServiceShape" [] [
    Operation "$activateByEvent" [("activationEvent", "string")] (TPromise "void")
  ].

Definition ExtHostFileSystemEventServiceShape : shape :=
  Shape "ExtHostFileSystemEventServiceShape" [] [
    Operation "$onFileEvent" [("events", "FileSystemEvents")] Void
  ].

Definition ExtHostHeapServiceShape : shape :=
  Shape "ExtHostHeapServiceShape" [] [
    Operation "$onGarbageCollection" [("ids", "number[]")] Void
  ].

Definition ExtHostLanguageFeaturesShape : shape :=
  Shape "ExtHostLanguageFeaturesShape" [] [
    Operation "$provideDocumentSymbols"
      [("handle", "number");
       ("resource", "URI")]
      (TPromise "modes.SymbolInformation[]");
    Operation "$provideCodeLenses"
      [("handle", "number");
       ("resource", "URI")]
      (TPromise "modes.ICodeLensSymbol[]");
    Operation "$resolveCodeLens"
      [("handle", "number");
       ("resource", "URI");
       ("symbol", "modes.ICodeLensSymbol")]
      (TPromise "modes.ICodeLensSymbol");
    Operation "$provideDefinition"
      [("handle", "number");
       ("resource", "URI");
       ("position", "IPosition")]
      (TPromise "modes.Definition");
    Operation "$provideImplementation"
      [("handle", "number");
       ("resource", "URI");
       ("position", "IPosition")]
      (TPromise "modes.Definition");
    Operation "$provideTypeDefinition"
      [("handle", "number");
       ("resource", "URI");
       ("position", "IPosition")]
      (TPromise "modes.Definition");
    Operation "$provideHover"
      [("handle", "number");
       ("resource", "URI");
       ("position", "IPosition")]
      (TPromise "modes.Hover");
    Operation "$provideDocumentHighlights"
      [("handle", "number");
       ("resource", "URI");
       ("position", "IPosition")]
      (TPromise "modes.DocumentHighlight[]");
    Operation "$provideReferences"
      [("handle", "number");
       ("resource", "URI");
       ("position", "IPosition");
       ("context", "modes.ReferenceContext")]
      (TPromise "modes.Location[]");
    Operation "$provideCodeActions"
      [("handle", "number");
       ("resource", "URI");
       ("range", "IRange")]
      (TPromise "(modes.Command | modes.CodeAction)[]");
    Operation "$provideDocumentFormattingEdits"
      [("handle", "number");
       ("resource", "URI");
       ("options", "modes.FormattingOptions")]
      (TPromise "editorCommon.ISingleEditOperation[]");
    Operation "$provideDocumentRangeFormattingEdits"
      [("handle", "number");
       ("resource", "URI");
       ("range", "IRange");
       ("options", "modes.FormattingOptions")]
      (TPromise "editorCommon.ISingleEditOperation[]");
    Operation "$provideOnTypeFormattingEdits"
      [("handle", "number");
       ("resource", "URI");
       ("position", "IPosition");
       ("ch", "string");
       ("options", "modes.FormattingOptions")]
      (TPromise "editorCommon.ISingleEditOperation[]");
    Operation "$provideWorkspaceSymbols"
      [("handle", "number");
       ("search", "string")]
      (TPromise "IWorkspaceSymbols");
    Operation "$resolveWorkspaceSymbol"
      [("handle", "number");
       ("symbol", "modes.SymbolInformation")]
      (TPromise "IWorkspaceSymbol");
    Operation "$releaseWorkspaceSymbols" [("handle", "number"); ("id", "number")] Void;
    Operation "$provideRenameEdits"
      [("handle", "number");
       ("resource", "URI");
       ("position", "IPosition");
       ("newName", "string")]
      (TPromise "modes.WorkspaceEdit");
    Operation "$provideCompletionItems"
      [("handle", "number");
       ("resource", "URI");
       ("position", "IPosition");
       ("context", "modes.SuggestContext")]
      (TPromise "IExtHostSuggestResult");
    Operation "$resolveCompletionItem"
      [("handle", "number");
       ("resource", "URI");
       ("position", "IPosition");
       ("suggestion", "modes.ISuggestion")]
      (TPromise "modes.ISuggestion");
    Operation "$releaseCompletionItems" [("handle", "number"); ("id", "number")] Void;
    Operation "$provideSignatureHelp"
      [("handle", "number");
       ("resource", "URI");
       ("position", "IPosition")]
      (TPromise "modes.SignatureHelp");
    Operation "$provideDocumentLinks"
      [("handle", "number");
       ("resource", "URI")]
      (TPromise "modes.ILink[]");
    Operation "$resolveDocumentLink"
      [("handle", "number");
       ("link", "modes.ILink")]
      (TPromise "modes.ILink");
    Operation "$provideDocumentColors"
      [("handle", "number");
       ("resource", "URI")]
      (TPromise "IRawColorInfo[]");
    Operation "$provideColorPresentations"
      [("handle", "number");
       ("resource", "URI");
       ("colorInfo", "IRawColorInfo")]
      (TPromise "modes.IColorPresentation[]")
  ].

Definition ExtHostQuickOpenShape : shape :=
  Shape "ExtHostQuickOpenShape" [] [
    Operation "$onItemSelected" [("handle", "number")] Void;
    Operation "$validateInput" [("input", "string")] (TPromise "string")
  ].

Definition ExtHostTerminalServiceShape : shape :=
  Shape "ExtHostTerminalServiceShape" [] [
    Operation "$acceptTerminalClosed" [("id", "number")] Void;
    Operation "$acceptTerminalProcessId" [("id", "number"); ("processId", "number")] Void
  ].

Definition ExtHostSCMShape : shape :=
  Shape "ExtHostSCMShape" [] [
    Operation "$provideOriginalResource"
      [("sourceControlHandle", "number");
       ("uri", "URI")]
      (TPromise "URI");
    Operation "$onInputBoxValueChange"
      [("sourceControlHandle", "number");
       ("value", "string")]
      (TPromise "void");
    Operation "$executeResourceCommand"
      [("sourceControlHandle", "number");
       ("groupHandle", "number");
       ("handle", "number")]
      (TPromise "void")
  ].

Definition ExtHostTaskShape : shape :=
  Shape "ExtHostTaskShape" [] [
    Operation "$provideTasks" [("handle", "number")] (TPromise "TaskSet")
  ].

Definition ExtHostDebugServiceShape : shape :=
  Shape "ExtHostDebugServiceShape" [] [
    Operation "$resolveDebugConfiguration"
      [("handle", "number");
       ("folder", "URI | undefined");
       ("debugConfiguration", "any")]
      (TPromise "any");
    Operation "$provideDebugConfigurations"
      [("handle", "number");
       ("folder", "URI | undefined")]
      (TPromise "any[]");
    Operation "$acceptDebugSessionStarted"
      [("id", "DebugSessionUUID");
       ("type", "string");
       ("name", "string")]
      Void;
    Operation "$acceptDebugSessionTerminated"
      [("id", "DebugSessionUUID");
       ("type", "string");
       ("name", "string")]
      Void;
    Operation "$acceptDebugSessionActiveChanged"
      [("id", "DebugSessionUUID | undefined");
       ("type?", "string");
       ("name?", "string")]
      Void;
    Operation "$acceptDebugSessionCustomEvent"
      [("id", "DebugSessionUUID");
       ("type", "string");
       ("name", "string");
       ("event", "any")]
      Void
  ].

Definition ExtHostDecorationsShape : shape :=
  Shape "ExtHostDecorationsShape" [] [
    Operation "$providerDecorations"
      [("handle", "number");
       ("uri", "URI")]
      (TPromise "DecorationData")
  ].

Definition ExtHostWindowShape : shape :=
  Shape "ExtHostWindowShape" [] [
    Operation "$onDidChangeWindowFocus" [("value", "boolean")] Void
  ].

(** *** proxy identifiers *)

Definition MainContext : list (string * ProxyIdentifier) := [
  ("MainThreadCommands",
     createMainId MainThreadCommandsShape "MainThreadCommands");
  ("MainThreadConfiguration",
     createMainId MainThreadConfigurationShape "MainThreadConfiguration");
  ("MainThreadDebugService",
     createMainId MainThreadDebugServiceShape "MainThreadDebugService");
  ("MainThreadDecorations",
     createMainId MainThreadDecorationsShape "MainThreadDecorations");
  ("MainThreadDiagnostics",
     createMainId MainThreadDiagnosticsShape "MainThreadDiagnostics");
  ("MainThreadDialogs",
     createMainId MainThreadDiaglogsShape "MainThreadDiaglogs");
  ("MainThreadDocuments",
     createMainId MainThreadDocumentsShape "MainThreadDocuments");
  ("MainThreadDocumentContentProviders",
     createMainId MainThreadDocumentContentProvidersShape "MainThreadDocumentContentProviders");
  ("MainThreadEditors",
     createMainId MainThreadEditorsShape "MainThreadEditors");
  ("MainThreadErrors",
     createMainId MainThreadErrorsShape "MainThreadErrors");
  ("MainThreadTreeViews",
     createMainId MainThreadTreeViewsShape "MainThreadTreeViews");
  ("MainThreadLanguageFeatures",
     createMainId MainThreadLanguageFeaturesShape "MainThreadLanguageFeatures");
  ("MainThreadLanguages",
     createMainId MainThreadLanguagesShape "MainThreadLanguages");
  ("MainThreadMessageService",
     createMainId MainThreadMessageServiceShape "MainThreadMessageService");
  ("MainThreadOutputService",
     createMainId MainThreadOutputServiceShape "MainThreadOutputService");
  ("MainThreadProgress",
     createMainId MainThreadProgressShape "MainThreadProgress");
  ("MainThreadQuickOpen",
     createMainId MainThreadQuickOpenShape "MainThreadQuickOpen");
  ("MainThreadStatusBar",
     createMainId MainThreadStatusBarShape "MainThreadStatusBar");
  ("MainThreadStorage",
     createMainId MainThreadStorageShape "MainThreadStorage");
  ("MainThreadTelemetry",
     createMainId MainThreadTelemetryShape "MainThreadTelemetry");
  ("MainThreadTerminalService",
     createMainId MainThreadTerminalServiceShape "MainThreadTerminalService");
  ("MainThreadWorkspace",
     createMainId MainThreadWorkspaceShape "MainThreadWorkspace");
  ("MainThreadFileSystem",
     createMainId MainThreadFileSystemShape "MainThreadFileSystem");
  ("MainThreadExtensionService",
     createMainId MainThreadExtensionServiceShape "MainThreadExtensionService");
  ("MainThreadSCM",
     createMainId MainThreadSCMShape "MainThreadSCM");
  ("MainThreadTask",
     createMainId MainThreadTaskShape "MainThreadTask");
  ("MainThreadWindow",
     createMainId MainThreadWindowShape "MainThreadWindow")
].

Definition ExtHostContext : list (string * ProxyIdentifier) := [
  ("ExtHostCommands",
     createExtId ExtHostCommandsShape "ExtHostCommands");
  ("ExtHostConfiguration",
     createExtId ExtHostConfigurationShape "ExtHostConfiguration");
  ("ExtHostDiagnostics",
     createExtId ExtHostDiagnosticsShape "ExtHostDiagnostics");
  ("ExtHostDebugService",
     createExtId ExtHostDebugServiceShape "ExtHostDebugService");
  ("ExtHostDecorations",
     createExtId ExtHostDecorationsShape "ExtHostDecorations");
  ("ExtHostDocumentsAndEditors",
     createExtId ExtHostDocumentsAndEditorsShape "ExtHostDocumentsAndEditors");
  ("ExtHostDocuments",
     createExtId ExtHostDocumentsShape "ExtHostDocuments");
  ("ExtHostDocumentContentProviders",
     createExtId ExtHostDocumentContentProvidersShape "ExtHostDocumentContentProviders");
  ("ExtHostDocumentSaveParticipant",
     createExtId ExtHostDocumentSaveParticipantShape "ExtHostDocumentSaveParticipant");
  ("ExtHostEditors",
     createExtId ExtHostEditorsShape "ExtHostEditors");
  ("ExtHostTreeViews",
     createExtId ExtHostTreeViewsShape "ExtHostTreeViews");
  ("ExtHostFileSystem",
     createExtId ExtHostFileSystemShape "ExtHostFileSystem");
  ("ExtHostFileSystemEventService",
     createExtId ExtHostFileSystemEventServiceShape "ExtHostFileSystemEventService");
  ("ExtHostHeapService",
     createExtId ExtHostHeapServiceShape "ExtHostHeapMonitor");
  ("ExtHostLanguageFeatures",
     createExtId ExtHostLanguageFeaturesShape "ExtHostLanguageFeatures");
  ("ExtHostQuickOpen",
     createExtId ExtHostQuickOpenShape "ExtHostQuickOpen");
  ("ExtHostExtensionService",
     createExtId ExtHostExtensionServiceShape "ExtHostExtensionService");
  ("ExtHostTerminalService",
     createExtId ExtHostTerminalServiceShape "ExtHostTerminalService");
  ("ExtHostSCM",
     createExtId ExtHostSCMShape "ExtHostSCM");
  ("ExtHostTask",
     createExtId ExtHostTaskShape "ExtHostTask");
  ("ExtHostWorkspace",
     createExtId ExtHostWorkspaceShape "ExtHostWorkspace");
  ("ExtHostWindow",
     createExtId ExtHostWindowShape "ExtHostWindow")
].

(** Every operation a shape carries: its own and the inherited ones. *)
Fixpoint all_operations (s : shape) : list operation :=
  operations s ++ flat_map all_operations (extends s).

(** Does [s] extend [base], directly or through a parent? *)
Fixpoint extends_from (base : string) (s : shape) : bool :=
  existsb (λ p, bool_decide (shape_name p = base) || extends_from base p) (extends s).

(** A disposal operation: [dispose], or its remote form [$dispose]. *)
Definition is_disposal (o : operation) : bool :=
  bool_decide (op_name o = "dispose") || bool_decide (op_name o = "$dispose").

Definition carries_disposal (s : shape) : bool :=
  existsb is_disposal (all_operations s).

(** The shapes bound in a table, and every operation reachable through
    it. *)
Definition shapes_of (table : list (string * ProxyIdentifier)) : list shape :=
  map (λ e, T e.2) table.

Definition names_of (table : list (string * ProxyIdentifier)) : list string :=
  map (λ e, name e.2) table.

Definition protocol_shapes : list shape :=
  shapes_of MainContext ++ shapes_of ExtHostContext.

Definition protocol_operations : list operation :=
  flat_map operations protocol_shapes.

(** Names in accept or notify style: the state pushes [$accept..] and the
    notifications [$on..] (of which [$onGarbageCollection] is one); the
    file has no operation named [$notify..]. *)
Definition accept_notify_style (op : string) : bool :=
  String.prefix "$accept" op || String.prefix "$notify" op
  || String.prefix "$on" op.

(** How a remote call ends on the side that serves it. *)
Inductive completion := Completed | Failed.

#[global] Instance completion_eq_dec : EqDecision completion.
Proof. solve_decision. Defined.

(** Modelled from the spec: the transport that carries a call is not part of
    the file. By the spec an operation with a deferred result surfaces the
    failure of the call to the caller as a failed result, and an operation
    without result gives the caller nothing: its failure is swallowed at the
    transport boundary. *)
Definition surfaces (o : operation) (c : completion) : option completion :=
  match op_result o with
  | Void => None
  | TPromise _ | Thenable _ => Some c
  end.

(** Does [s] occur in [t]? *)
Definition mentions (s t : string) : bool :=
  match String.index 0 s t with
  | Some _ => true
  | None => false
  end.

(** An operation whose name speaks of garbage collection or of the heap. *)
Definition gc_related (o : operation) : bool :=
  mentions "Garbage" (op_name o) || mentions "Collect" (op_name o)
  || mentions "GC" (op_name o) || mentions "Heap" (op_name o).

(** The shapes among [ss] that declare an operation named [op]. *)
Definition declared_by (op : string) (ss : list shape) : list string :=
  map shape_name (filter (λ s, op ∈ map op_name (operations s)) ss).

(** Resolution of a capability by its registered name. *)
Definition resolve (table : list (string * ProxyIdentifier)) (nm : string)
  : option ProxyIdentifier :=
  snd <$> list_find (λ p, name p = nm) (map snd table).

End Protocol.

(** ** The documents-and-editors delta

  The payload types are those of the protocol file. Types imported from
  other files are carried by what the protocol sends for them: a [URI] by
  its string form, enumerations by their number, a selection by its four
  coordinates. *)

Module Delta.

Definition URI := string.
Definition EditorPosition := Z.
Definition TextEditorCursorStyle := Z.
Definition TextEditorLineNumbersStyle := Z.

Record ISelection := {
  selectionStartLineNumber : Z;
  selectionStartColumn : Z;
  positionLineNumber : Z;
  positionColumn : Z
}.

Record IResolvedTextEditorConfiguration := {
  tabSize : Z;
  insertSpaces : bool;
  cursorStyle : TextEditorCursorStyle;
  lineNumbers : TextEditorLineNumbersStyle
}.

Record IModelAddedData := {
  url : URI;
  versionId : Z;
  lines : list string;
  EOL : string;
  modeId : string;
  isDirty : bool
}.

Record ITextEditorAddData := {
  id : string;
  document : URI;
  options : IResolvedTextEditorConfiguration;
  selections : list ISelection;
  editorPosition : EditorPosition
}.

(** Every field of the delta is optional. *)
Record IDocumentsAndEditorsDelta := {
  removedDocuments : option (list string);
  addedDocuments : option (list IModelAddedData);
  removedEditors : option (list string);
  addedEditors : option (list ITextEditorAddData);
  newActiveEditor : option string
}.

(** Modelled from the spec: the receiver of [$acceptDocumentsAndEditorsDelta]
    (extHostDocumentsAndEditors.ts) is not part of the file. Its shadow
    state holds the live documents and editors by id and the active
    pointer. *)
Record shadow := Shadow {
  documents : gmap string IModelAddedData;
  editors : gmap string ITextEditorAddData;
  activeEditor : option string
}.

(** Modelled from the spec: the initial, unsynced shadow is empty. *)
Definition unsynced : shadow := Shadow ∅ ∅ None.

(** Modelled from the spec: "remove each id in
    [d.removedDocuments/removedEditors] from the shadow". *)
Definition remove_all {A} (ids : option (list string)) (m : gmap string A)
  : gmap string A :=
  foldl (λ acc i, delete i acc) m (default [] ids).

(** Modelled from the spec: "add each descriptor in
    [addedDocuments/addedEditors] (replacing any existing entry with the
    same id)". *)
Definition add_all {A} (key : A → string) (added : option (list A))
    (m : gmap string A) : gmap string A :=
  foldl (λ acc data, <[key data := data]> acc) m (default [] added).

(** Modelled from the spec: the transition of [applyDelta(d)]: removals,
    then additions, then, "if [newActiveEditor] is present, update the active
    pointer". *)
Definition transition (d : IDocumentsAndEditorsDelta) (s : shadow) : shadow :=
  Shadow (add_all url (addedDocuments d) (remove_all (removedDocuments d) (documents s)))
         (add_all id (addedEditors d) (remove_all (removedEditors d) (editors s)))
         (match newActiveEditor d with
          | Some e => Some e
          | None => activeEditor s
          end).

(** Modelled from the spec: "a malformed delta (editor added referencing a
    document neither previously known nor present in the same delta's
    [addedDocuments])". *)
Definition malformed (d : IDocumentsAndEditorsDelta) (s : shadow) : Prop :=
  Exists (λ e, (document e ∉ dom (documents s))
               ∧ (document e ∉ map url (default [] (addedDocuments d))))
         (default [] (addedEditors d)).

#[global] Instance malformed_dec d s : Decision (malformed d s).
Proof. unfold malformed. apply _. Defined.

(** Modelled from the spec: [applyDelta(d)] with its failure semantics: a
    malformed delta "is a protocol violation", fatal to the session and
    [None] here; every other delta takes the transition. *)
Definition applyDelta (d : IDocumentsAndEditorsDelta) (s : shadow) : option shadow :=
  if decide (malformed d s) then None else Some (transition d s).

(** A delta received twice: the replay meets the shadow the first
    application left, if it left one. *)
Definition replay (d : IDocumentsAndEditorsDelta) (s : shadow) : option shadow :=
  match applyDelta d s with
  | Some s1 => applyDelta d s1
  | None => None
  end.

End Delta.

(** ** Result sets of the language features *)

Module Suggest.

(** [modes.ISuggestion] is imported; of its fields only the label is
    kept. *)
Record ISuggestion := {
  label : string
}.

(** [interface IExtHostSuggestion extends modes.ISuggestion] *)
Record IExtHostSuggestion := {
  suggestion : ISuggestion;
  _id : Z;
  _parentId : Z
}.

(** The field [_id] of the result is [result_id] here: the name [_id] is
    taken by the field of [IExtHostSuggestion]. *)
Record IExtHostSuggestResult := {
  result_id : Z;
  suggestions : list IExtHostSuggestion;
  incomplete : option bool
}.

(** Modelled from the spec: the completion provider adapter behind
    [$provideCompletionItems], [$resolveCompletionItem] and
    [$releaseCompletionItems] (extHostLanguageFeatures.ts) is not part of
    the file. It keeps the result sets it handed out under their parent
    handle, and the next unused parent handle. *)
Record adapter := Adapter {
  cache : gmap Z (list ISuggestion);
  idPool : Z
}.

(** Modelled from the spec: "identities for a result set share a parent
    handle and use nested counters": the set takes the next unused handle,
    item [i] of the set is numbered [i] under it. *)
Definition provideCompletionItems (items : list ISuggestion) (a : adapter)
  : IExtHostSuggestResult * adapter :=
  let parent := idPool a in
  ({| result_id := parent;
      suggestions :=
        imap (λ i item, {| suggestion := item; _id := Z.of_nat i; _parentId := parent |})
             items;
      incomplete := None |},
   Adapter (<[parent := items]> (cache a)) (parent + 1)).

(** Modelled from the spec: an item is re-referenced in a follow-up call
    through its identity; a released one is no longer found. *)
Definition resolveCompletionItem (s : IExtHostSuggestion) (a : adapter)
  : option ISuggestion :=
  if _id s <? 0 then None
  else items ← cache a !! _parentId s; items !! Z.to_nat (_id s).

(** Modelled from the spec: "an entire set can be released in one call
    ([release(parentHandle)])". *)
Definition releaseCompletionItems (id : Z) (a : adapter) : adapter :=
  Adapter (delete id (cache a)) (idPool a).

End Suggest.

(** * Properties *)

(** ** Objects *)

Section objects.
Import Js.

Lemma update_Ok f l (h h' : heap) :
  update f l h = Ok h' →
  ∃ o o', h !! l = Some o ∧ f o = Ok o' ∧ h' = <[l := o']> h.
Proof.
  unfold update. destruct (h !! l) as [o|] eqn:Hl; [|discriminate].
  destruct (f o) as [o'|] eqn:Hf; [|discriminate].
  intros [= <-]. eauto.
Qed.

Lemma update_TypeError f l (h : heap) :
  update f l h = TypeError → h !! l = None ∨ ∃ o, h !! l = Some o ∧ f o = TypeError.
Proof.
  unfold update. destruct (h !! l) as [o|]; [|by left].
  destruct (f o) eqn:Hf; [discriminate|]. right. eauto.
Qed.

(** Assignment writes the value and keeps the other attributes of an
    existing property; a new property is enumerable and configurable. *)
Lemma assign_Ok o k v o' :
  assign o k v = Ok o' →
  props o' = <[k := Property v true
                      (from_option p_enumerable true (props o !! k))
                      (from_option p_configurable true (props o !! k))]> (props o)
  ∧ extensible o' = extensible o.
Proof.
  unfold assign. destruct (props o !! k) as [p|].
  - destruct (p_writable p); [|discriminate]. by intros [= <-].
  - destruct (extensible o); [|discriminate]. by intros [= <-].
Qed.

Lemma assign_get o k v o' : assign o k v = Ok o' → get o' k = v.
Proof.
  intros [Hp _]%assign_Ok. unfold get. by rewrite Hp, lookup_insert_eq.
Qed.

Lemma assign_writable o k v o' :
  assign o k v = Ok o' → ∃ p, props o' !! k = Some p ∧ p_writable p = true.
Proof.
  intros [Hp _]%assign_Ok. rewrite Hp, lookup_insert_eq. eauto.
Qed.

Lemma assign_again o k v p :
  props o !! k = Some p → p_writable p = true → ∃ o', assign o k v = Ok o'.
Proof. intros Hk Hw. unfold assign. rewrite Hk, Hw. eauto. Qed.

(** What [Object.defineProperty] leaves behind when it returns. *)
Lemma defineProperty_Ok o k d o' :
  defineProperty o k d = Ok o' →
  props o' = <[k := apply_descriptor d
                      (default (Property undefined false false false) (props o !! k))]>
               (props o)
  ∧ extensible o' = extensible o.
Proof.
  unfold defineProperty. destruct (props o !! k) as [cur|]; simpl.
  - repeat case_match; try discriminate. by intros [= <-].
  - destruct (extensible o); [|discriminate]. by intros [= <-].
Qed.

(** A property defined once by [{ value: v, enumerable: true }] on a plain
    object is read-only: defining it again with another value throws. *)
Lemma defineProperty_twice o k v w o' :
  props o !! k = None →
  defineProperty o k (Descriptor (Some v) None (Some true) None) = Ok o' →
  v ≠ w →
  defineProperty o' k (Descriptor (Some w) None (Some true) None) = TypeError.
Proof.
  intros Hk [Hp _]%defineProperty_Ok Hne. unfold defineProperty.
  rewrite Hp, lookup_insert_eq, Hk. simpl.
  by rewrite (bool_decide_eq_true_2 (w ≠ v)) by congruence.
Qed.

Lemma keys_insert_enumerable o k p :
  p_enumerable p = true →
  keys (Obj (<[k := p]> (props o)) (extensible o)) = keys o ∪ {[k]}.
Proof.
  intros Hp. unfold keys. simpl.
  rewrite map_filter_insert_True by done.
  by rewrite dom_insert_L, (comm_L (∪)).
Qed.

End objects.

(** ** ObjectIdentifier *)

Section object_identifier.
Import Js ObjectIdentifier.

(** The object of the example: [{ label: 'f' }] at reference [1]. *)
Let sample : heap := {[1%positive := Obj {["label" := plain (str "f")]} true]}.

(** C2, as stated, fails: stamping [{ label: 'f' }] with the identity [7]
    returns the object with [$ident] among its enumerated keys, where the
    claim has the added field unobservable to a consumer that enumerates
    the object. *)
Lemma ObjectIdentifier_mixin_identity_is_enumerated :
  ∃ o o',
    sample !! 1%positive = Some o
    ∧ mixin 1%positive 7 sample = (Ok 1%positive, {[1%positive := o']})
    ∧ keys o = {["label"]}
    ∧ keys o' = {["$ident"; "label"]}
    ∧ ¬ (name ∉ keys o').
Proof.
  do 2 eexists. split_and!.
  - vm_compute. reflexivity.
  - vm_compute. reflexivity.
  - vm_compute. reflexivity.
  - vm_compute. reflexivity.
  - intros H. apply H. apply (bool_decide_unpack _). vm_compute. exact I.
Qed.

(** On a plain extensible object that has no [$ident] yet, the call
    returns. *)
Lemma ObjectIdentifier_mixin_returns obj id (h : heap) o :
  h !! obj = Some o → extensible o = true → props o !! name = None →
  ∃ h', mixin obj id h = (Ok obj, h').
Proof.
  intros Ho He Hk. unfold mixin, update, defineProperty.
  rewrite Ho, Hk, He. by eexists.
Qed.

(** C2, amended: [ObjectIdentifier.mixin(obj, id)] returns on every
    extensible object that has no [$ident] yet, and when it returns, it
    returns [obj] itself, mutated in place; every property of [obj] other
    than [$ident] and its extensibility are unchanged; [$ident] is an own,
    enumerable property holding [id], so that the enumerated keys of the
    object are the former ones and [$ident], and [ObjectIdentifier.of] reads
    [id] back. *)
Theorem ObjectIdentifier_mixin_frame :
  (∀ obj id (h : heap) o,
     h !! obj = Some o → extensible o = true → props o !! name = None →
     ∃ h', mixin obj id h = (Ok obj, h'))
  ∧ (∀ obj id (h : heap) r h',
       mixin obj id h = (Ok r, h') →
       r = obj ∧
       ∃ o o', h !! obj = Some o ∧ h' = <[obj := o']> h
         ∧ extensible o' = extensible o
         ∧ (∀ k, k ≠ name → props o' !! k = props o !! k)
         ∧ (∃ p, props o' !! name = Some p ∧ p_value p = number id
                 ∧ p_enumerable p = true)
         ∧ keys o' = keys o ∪ {[name]}
         ∧ of_ obj h' = number id).
Proof.
  split; [exact ObjectIdentifier_mixin_returns|].
  intros obj id h r h'.
  unfold mixin. destruct (update _ _ _) as [h1|] eqn:Hu; [|discriminate].
  intros [= <- <-]. split; [done|].
  apply update_Ok in Hu as (o & o' & Ho & Hd & ->).
  pose proof (defineProperty_Ok _ _ _ _ Hd) as [Hp He].
  exists o, o'. split_and!; try done.
  - intros k Hk. rewrite Hp. by apply lookup_insert_ne.
  - rewrite Hp, lookup_insert_eq. eauto.
  - destruct o' as [ps' e']. simpl in *. subst ps' e'.
    by apply keys_insert_enumerable.
  - unfold of_, read, get. by rewrite lookup_insert_eq, Hp, lookup_insert_eq.
Qed.

Lemma ObjectIdentifier_mixin_frame_witness :
  (∃ h', mixin 1%positive 7 sample = (Ok 1%positive, h'))
  ∧ of_ 1%positive (mixin 1%positive 7 sample).2 = number 7.
Proof.
  destruct ObjectIdentifier_mixin_frame as [Hreturns Hframe].
  split.
  - apply (Hreturns 1%positive 7 sample (Obj {["label" := plain (str "f")]} true));
      vm_compute; reflexivity.
  - assert (mixin 1%positive 7 sample = (Ok 1%positive, (mixin 1%positive 7 sample).2))
      as H by (vm_compute; reflexivity).
    destruct (Hframe _ _ _ _ _ H) as (_ & o & o' & _ & _ & _ & _ & _ & _ & Hof).
    exact Hof.
Defined.

(** A thrown TypeError leaves the heap as it was. *)
Lemma ObjectIdentifier_mixin_TypeError obj id (h : heap) h' :
  mixin obj id h = (TypeError, h') → h' = h.
Proof.
  unfold mixin. destruct (update _ _ _); [discriminate|]. by intros [= <-].
Qed.

(** The identity is write-once: a second stamp with another identity
    throws. *)
Lemma ObjectIdentifier_mixin_twice obj id id' (h : heap) r h' o :
  h !! obj = Some o → props o !! name = None →
  mixin obj id h = (Ok r, h') → id ≠ id' →
  mixin obj id' h' = (TypeError, h').
Proof.
  intros Ho Hk Hm Hne. unfold mixin in *.
  destruct (update _ obj h) as [h1|] eqn:Hu; [|discriminate].
  injection Hm as <- <-.
  apply update_Ok in Hu as (o1 & o' & Ho1 & Hd & ->).
  assert (o1 = o) as -> by congruence.
  unfold update. rewrite lookup_insert_eq.
  by rewrite (defineProperty_twice o name (number id) (number id') o' Hk Hd)
    by congruence.
Qed.

End object_identifier.

(** ** IdObject *)

Section id_object.
Import Js IdObject.

Lemma increment_exact k : k < MAX_EXACT → increment k = k + 1.
Proof. intros H. unfold increment. by rewrite (proj2 (Z.ltb_lt _ _) H). Qed.

(** At [2^53] the counter no longer moves. *)
Lemma increment_saturates : increment MAX_EXACT = MAX_EXACT.
Proof. reflexivity. Qed.

Lemma increment_range k : 0 ≤ k ≤ MAX_EXACT → 0 ≤ increment k ≤ MAX_EXACT.
Proof.
  intros H. unfold increment. destruct (Z.ltb_spec k MAX_EXACT); lia.
Qed.

(** The counter advances on every call, whatever the object and whether or
    not the assignment throws. *)
Lemma mixin_counter o σ : n (mixin o σ).2 = increment (n σ).
Proof. unfold mixin. by destruct (update _ _ _). Qed.

Lemma mixin_Ok o σ r σ' :
  mixin o σ = (Ok r, σ') →
  r = o ∧ n σ' = increment (n σ) ∧
  ∃ ob ob', objects σ !! o = Some ob ∧ assign ob "_id" (number (n σ)) = Ok ob'
            ∧ objects σ' = <[o := ob']> (objects σ).
Proof.
  unfold mixin. destruct (update _ _ _) as [h'|] eqn:Hu; [|discriminate].
  intros [= <- <-]. apply update_Ok in Hu as (ob & ob' & ? & ? & ->).
  simpl. eauto 10.
Qed.

Lemma mixin_TypeError o σ σ' :
  mixin o σ = (TypeError, σ') → objects σ' = objects σ.
Proof.
  unfold mixin. destruct (update _ _ _); [discriminate|]. by intros [= <-].
Qed.

Lemma mixin_id o σ r σ' : mixin o σ = (Ok r, σ') → _id r σ' = number (n σ).
Proof.
  intros (-> & _ & ob & ob' & _ & Ha & Hh)%mixin_Ok.
  unfold _id, read. rewrite Hh, lookup_insert_eq. by eapply assign_get.
Qed.

Lemma mixin_other o σ o' : o' ≠ o → objects (mixin o σ).2 !! o' = objects σ !! o'.
Proof.
  intros Hne. destruct (mixin o σ) as [[r|] σ'] eqn:Hm; simpl.
  - apply mixin_Ok in Hm as (_ & _ & ob & ob' & _ & _ & Hh).
    rewrite Hh. by apply lookup_insert_ne.
  - by rewrite (mixin_TypeError _ _ _ Hm).
Qed.

Lemma mixin_stampable o σ r σ' : mixin o σ = (Ok r, σ') → stampable o σ'.
Proof.
  intros (_ & _ & ob & ob' & _ & Ha & Hh)%mixin_Ok.
  apply assign_writable in Ha as (p & ? & ?).
  exists ob', p. by rewrite Hh, lookup_insert_eq.
Qed.

Lemma stampable_mixin o σ : stampable o σ → ∃ σ', mixin o σ = (Ok o, σ').
Proof.
  intros (ob & p & Ho & Hp & Hw). unfold mixin, update. rewrite Ho.
  destruct (assign_again ob "_id" (number (n σ)) p Hp Hw) as [ob' ->]. by eexists.
Qed.

(** A call returns on every extensible object without [_id], and on every
    object whose [_id] is writable. *)
Lemma mixin_returns o σ ob :
  objects σ !! o = Some ob →
  (props ob !! "_id" = None ∧ extensible ob = true)
  ∨ (∃ p, props ob !! "_id" = Some p ∧ p_writable p = true) →
  ∃ σ', mixin o σ = (Ok o, σ').
Proof.
  intros Ho [[Hk He]|(p & Hk & Hw)]; unfold mixin, update, assign;
    rewrite Ho, Hk; [rewrite He|rewrite Hw]; by eexists.
Qed.

Lemma run_cons o calls σ :
  run (o :: calls) σ =
  ((mixin o σ).1 :: (run calls (mixin o σ).2).1, (run calls (mixin o σ).2).2).
Proof.
  change (run (o :: calls) σ) with
    (let '(r, σ1) := mixin o σ in let '(rs, σ2) := run calls σ1 in (r :: rs, σ2)).
  destruct (mixin o σ) as [r σ1]. simpl. by destruct (run calls σ1).
Qed.

(** From [n_init] on, the counter stays within the range in which
    [increment] is the double-precision sum. *)
Lemma run_counter_range calls σ :
  0 ≤ n σ ≤ MAX_EXACT → 0 ≤ n (run calls σ).2 ≤ MAX_EXACT.
Proof.
  revert σ. induction calls as [|o calls IH]; intros σ Hb; [done|].
  rewrite run_cons. simpl. apply IH. rewrite mixin_counter. by apply increment_range.
Qed.

Lemma run_counter calls σ :
  n σ + Z.of_nat (length calls) ≤ MAX_EXACT →
  n (run calls σ).2 = n σ + Z.of_nat (length calls).
Proof.
  revert σ. induction calls as [|o calls IH]; intros σ Hb.
  - simpl. lia.
  - rewrite run_cons. simpl in *.
    rewrite IH; rewrite mixin_counter, increment_exact; lia.
Qed.

(** An object that can be stamped and is not stamped again keeps its
    state. *)
Lemma run_untouched calls σ o :
  stampable o σ → Ok o ∉ (run calls σ).1 →
  objects (run calls σ).2 !! o = objects σ !! o.
Proof.
  revert σ. induction calls as [|c calls IH]; intros σ Hs Hn; [done|].
  rewrite run_cons in *. simpl in *.
  apply not_elem_of_cons in Hn as [Hc Hn].
  destruct (decide (c = o)) as [->|Hne].
  - destruct (stampable_mixin o σ Hs) as [σ1 Hm]. rewrite Hm in Hc. by destruct Hc.
  - rewrite IH; [by apply mixin_other| |done].
    destruct Hs as (ob & p & Ho & Hp & Hw). exists ob, p.
    by rewrite mixin_other.
Qed.

(** The identity an object holds at the end of a run is the counter value
    of the last call that stamped it. *)
Lemma run_last_stamp calls σ o :
  n σ + Z.of_nat (length calls) ≤ MAX_EXACT →
  Ok o ∈ (run calls σ).1 →
  ∃ k : nat, calls !! k = Some o ∧ (run calls σ).1 !! k = Some (Ok o)
             ∧ _id o (run calls σ).2 = number (n σ + Z.of_nat k).
Proof.
  revert σ. induction calls as [|c calls IH]; intros σ Hb Hin.
  { simpl in Hin. by apply elem_of_nil in Hin. }
  rewrite run_cons in *. simpl in *.
  destruct (decide (Ok o ∈ (run calls (mixin c σ).2).1)) as [Hlater|Hlast].
  - destruct (IH (mixin c σ).2) as (k & Hk & Hr & Hid); [|done|].
    { rewrite mixin_counter, increment_exact; lia. }
    exists (S k). split_and!; [done..|].
    rewrite Hid, mixin_counter, increment_exact by lia. f_equal. lia.
  - apply elem_of_cons in Hin as [Hc|]; [|done].
    destruct (mixin c σ) as [r σ1] eqn:Hm. simpl in *. subst r.
    pose proof (mixin_Ok _ _ _ _ Hm) as (<- & _).
    exists 0%nat. split_and!; [done..|].
    unfold _id, read. rewrite run_untouched; [|by eapply mixin_stampable|done].
    pose proof (mixin_id _ _ _ _ Hm) as Hid. unfold _id, read in Hid.
    rewrite Hid. f_equal. lia.
Qed.

Lemma run_distinct calls σ o1 o2 :
  n σ + Z.of_nat (length calls) ≤ MAX_EXACT →
  Ok o1 ∈ (run calls σ).1 → Ok o2 ∈ (run calls σ).1 → o1 ≠ o2 →
  _id o1 (run calls σ).2 ≠ _id o2 (run calls σ).2.
Proof.
  intros Hb (k1 & Hc1 & _ & ->)%run_last_stamp (k2 & Hc2 & _ & ->)%run_last_stamp Hne;
    [|done..].
  intros [= Heq]. apply Hne. assert (k1 = k2) as -> by lia. congruence.
Qed.

(** The [k]-th call of a run, when it returns, has assigned the initial
    counter value plus [k]. *)
Lemma run_take calls σ (k : nat) o :
  n σ + Z.of_nat (length calls) ≤ MAX_EXACT →
  (run calls σ).1 !! k = Some (Ok o) →
  calls !! k = Some o
  ∧ _id o (run (take (S k) calls) σ).2 = number (n σ + Z.of_nat k).
Proof.
  revert σ k. induction calls as [|c calls IH]; intros σ k Hb Hk; [done|].
  rewrite run_cons in Hk. rewrite firstn_cons, run_cons. simpl in *.
  destruct k as [|k]; simpl in *.
  - injection Hk as Hk. destruct (mixin c σ) as [r σ1] eqn:Hm. simpl in *. subst r.
    pose proof (mixin_Ok _ _ _ _ Hm) as (<- & _). split; [done|].
    rewrite (mixin_id _ _ _ _ Hm). f_equal. lia.
  - destruct (IH (mixin c σ).2 k) as [? Hid]; [|done|].
    { rewrite mixin_counter, increment_exact; lia. }
    split; [done|]. rewrite Hid, mixin_counter, increment_exact by lia. f_equal. lia.
Qed.

Lemma elem_of_stamped o rs : o ∈ stamped rs ↔ Ok o ∈ rs.
Proof.
  unfold stamped. rewrite list_elem_of_omap. split.
  - intros ([o'|] & Hin & [= ->]). done.
  - intros Hin. by exists (Ok o).
Qed.

(** Two plain objects and the initial counter. *)
Let fresh : state :=
  State {[1%positive := empty_obj; 2%positive := empty_obj]} n_init.

(** C1: handle allocation is strictly monotonic and handles are not reused.
    A call of [IdObject.mixin] returns on every object that can take [_id];
    of two successive calls that return, the second
    assigns a strictly larger [_id] than the first; and at the end of any
    run of calls, two different objects of one category that were stamped
    during the run carry different ids. The counter is a JavaScript
    number: the statement is for runs that keep it within [2^53], where
    its increment is exact. *)
Theorem IdObject_mixin_strictly_monotonic :
  (∀ o σ ob,
     objects σ !! o = Some ob →
     (props ob !! "_id" = None ∧ extensible ob = true)
     ∨ (∃ p, props ob !! "_id" = Some p ∧ p_writable p = true) →
     ∃ σ', mixin o σ = (Ok o, σ'))
  ∧ (∀ σ o1 o2 r1 r2 σ1 σ2,
       n σ < MAX_EXACT →
       mixin o1 σ = (Ok r1, σ1) → mixin o2 σ1 = (Ok r2, σ2) →
       ∃ i1 i2, _id r1 σ1 = number i1 ∧ _id r2 σ2 = number i2 ∧ i1 < i2)
  ∧ (∀ (C : Type) (category : loc → C) calls σ o1 o2,
       n σ + Z.of_nat (length calls) ≤ MAX_EXACT →
       Ok o1 ∈ (run calls σ).1 → Ok o2 ∈ (run calls σ).1 →
       o1 ≠ o2 → category o1 = category o2 →
       _id o1 (run calls σ).2 ≠ _id o2 (run calls σ).2).
Proof.
  split_and!.
  - exact mixin_returns.
  - intros σ o1 o2 r1 r2 σ1 σ2 Hn H1 H2.
    exists (n σ), (n σ + 1). split_and!; [by eapply mixin_id| |lia].
    rewrite (mixin_id _ _ _ _ H2).
    apply mixin_Ok in H1 as (_ & -> & _). by rewrite increment_exact.
  - intros C category calls σ o1 o2 Hb Ho1 Ho2 Hne _. by apply run_distinct.
Qed.

Lemma IdObject_mixin_strictly_monotonic_witness :
  (∃ i1 i2, _id 1%positive (mixin 1%positive fresh).2 = number i1
            ∧ _id 2%positive (mixin 2%positive (mixin 1%positive fresh).2).2 = number i2
            ∧ i1 < i2)
  ∧ _id 1%positive (run [1%positive; 2%positive] fresh).2
    ≠ _id 2%positive (run [1%positive; 2%positive] fresh).2.
Proof.
  destruct IdObject_mixin_strictly_monotonic as (_ & Hsucc & Hrun).
  split.
  - apply (Hsucc fresh 1%positive 2%positive).
    + vm_compute. reflexivity.
    + vm_compute. reflexivity.
    + vm_compute. reflexivity.
  - apply (Hrun unit (λ _, ())).
    + vm_compute. discriminate.
    + apply (bool_decide_unpack _). vm_compute. exact I.
    + apply (bool_decide_unpack _). vm_compute. exact I.
    + discriminate.
    + reflexivity.
Defined.

(** C10: one counter serves every kind of object. Each call of
    [IdObject.mixin] advances the counter by one, whatever object it is
    given; on a plain object the call returns, and a call that returns has
    assigned the counter value it found; the
    [k]-th call of a run assigns the initial value plus [k]; so the objects
    stamped in a run carry pairwise different ids with no regard to their
    category, which yields uniqueness within every category and is not
    implied by it. As for C1, the counter is kept within [2^53]. *)
Theorem IdObject_single_counter :
  (∀ o σ, n σ < MAX_EXACT → n (mixin o σ).2 = n σ + 1)
  ∧ (∀ o σ ob,
       objects σ !! o = Some ob → props ob !! "_id" = None → extensible ob = true →
       ∃ σ', mixin o σ = (Ok o, σ') ∧ _id o σ' = number (n σ))
  ∧ (∀ o σ r σ', mixin o σ = (Ok r, σ') → r = o ∧ _id o σ' = number (n σ))
  ∧ (∀ calls σ (k : nat) o,
       n σ + Z.of_nat (length calls) ≤ MAX_EXACT →
       (run calls σ).1 !! k = Some (Ok o) →
       _id o (run (take (S k) calls) σ).2 = number (n σ + Z.of_nat k))
  ∧ (∀ calls σ,
       n σ + Z.of_nat (length calls) ≤ MAX_EXACT →
       unique_ids (stamped (run calls σ).1) (run calls σ).2)
  ∧ (∀ (C : Type) (category : loc → C) os σ,
       unique_ids os σ → unique_ids_within category os σ)
  ∧ (∃ (category : loc → bool) os σ,
       unique_ids_within category os σ ∧ ¬ unique_ids os σ).
Proof.
  split_and!.
  - intros o σ Hn. by rewrite mixin_counter, increment_exact.
  - intros o σ ob Ho Hk He.
    destruct (mixin_returns o σ ob Ho) as [σ' Hm]; [by left|].
    exists σ'. split; [done|]. by eapply mixin_id.
  - intros o σ r σ' Hm. pose proof (mixin_Ok _ _ _ _ Hm) as (-> & _).
    split; [done|]. by eapply mixin_id.
  - intros calls σ k o Hb Hk. by apply run_take.
  - intros calls σ Hb o1 o2 Ho1%elem_of_stamped Ho2%elem_of_stamped Hne.
    by apply run_distinct.
  - intros C category os σ Hu o1 o2 Ho1 Ho2 Hne _. by apply Hu.
  - exists (λ o, bool_decide (o = 1%positive)), [1%positive; 2%positive],
      (State {[1%positive := Obj {["_id" := plain (number 0)]} true;
               2%positive := Obj {["_id" := plain (number 0)]} true]} 1).
    split.
    + intros o1 o2 Ho1 Ho2 Hne Hcat. exfalso.
      apply elem_of_cons in Ho1 as [->|Ho1], Ho2 as [->|Ho2]; try done.
      * apply list_elem_of_singleton in Ho2 as ->. discriminate Hcat.
      * apply list_elem_of_singleton in Ho1 as ->. discriminate Hcat.
      * apply list_elem_of_singleton in Ho1 as ->.
        apply list_elem_of_singleton in Ho2 as ->. done.
    + intros Hu. apply (Hu 1%positive 2%positive); [| |done|].
      * apply elem_of_cons. by left.
      * apply elem_of_cons. right. apply elem_of_cons. by left.
      * vm_compute. reflexivity.
Qed.

Lemma IdObject_single_counter_witness :
  n (mixin 2%positive fresh).2 = n fresh + 1
  ∧ _id 1%positive (mixin 1%positive fresh).2 = number (n fresh)
  ∧ _id 2%positive (run (take 2 [1%positive; 2%positive]) fresh).2
    = number (n fresh + Z.of_nat 1)
  ∧ unique_ids (stamped (run [1%positive; 2%positive] fresh).1)
               (run [1%positive; 2%positive] fresh).2.
Proof.
  destruct IdObject_single_counter as (Hstep & _ & Hid & Hkth & Huniq & _).
  split_and!.
  - apply Hstep. vm_compute. reflexivity.
  - apply (Hid 1%positive fresh 1%positive). vm_compute. reflexivity.
  - apply (Hkth [1%positive; 2%positive] fresh 1%nat 2%positive).
    + vm_compute. discriminate.
    + vm_compute. reflexivity.
  - apply Huniq. vm_compute. discriminate.
Defined.

End id_object.

(** ** The capability tables *)

Section protocol.
Import Protocol.

(** The table keys are those of an object literal: pairwise distinct. *)
Lemma context_keys_distinct : NoDup (map fst MainContext) ∧ NoDup (map fst ExtHostContext).
Proof. split; apply (bool_decide_unpack _); vm_compute; exact I. Qed.

(** The tables bind every shape the file declares: 27 on the main side and
    22 on the extension-host side, with 181 operations between them. *)
Lemma protocol_size :
  length (shapes_of MainContext) = 27%nat
  ∧ length (shapes_of ExtHostContext) = 22%nat
  ∧ length protocol_operations = 181%nat.
Proof. by vm_compute. Qed.

(** C4: every shape registered in [MainContext] extends [IDisposable], and
    so carries the release operation [dispose]; no shape registered in
    [ExtHostContext] extends anything or declares a disposal operation. *)
Theorem main_shapes_disposable :
  Forall (λ s, extends s = [IDisposable] ∧ carries_disposal s = true)
         (shapes_of MainContext)
  ∧ Forall (λ s, extends s = [] ∧ carries_disposal s = false)
           (shapes_of ExtHostContext).
Proof.
  split; repeat (constructor; [split; vm_compute; reflexivity|]); constructor.
Qed.

(** C5, as stated, fails: [$onInputBoxValueChange] of [ExtHostSCMShape] is
    named in notify style and declares the deferred result
    [TPromise<void>], not [void]; through it a failure of the call reaches
    the caller. *)
Lemma onInputBoxValueChange_has_result :
  ∃ o, o ∈ operations ExtHostSCMShape
       ∧ o ∈ protocol_operations
       ∧ op_name o = "$onInputBoxValueChange"
       ∧ accept_notify_style (op_name o) = true
       ∧ op_result o = TPromise "void"
       ∧ ¬ (op_result o = Void)
       ∧ surfaces o Failed = Some Failed.
Proof.
  exists (Operation "$onInputBoxValueChange"
            [("sourceControlHandle", "number"); ("value", "string")] (TPromise "void")).
  split_and!; try reflexivity; try discriminate.
  - apply (bool_decide_unpack _). vm_compute. exact I.
  - apply (bool_decide_unpack _). vm_compute. exact I.
Qed.

(** C5, amended: every operation named [$accept..] declares the result
    [void], and so does every operation named [$on..] except
    [ExtHostSCMShape.$onInputBoxValueChange], which declares
    [TPromise<void>]; no operation is named [$notify..]. Of these
    twenty-eight operations the twenty-seven without result surface no
    failure to the caller, and the one with a deferred result does. *)
Theorem accept_notify_operations_void_but_one :
  Forall (λ o, op_result o = Void)
         (filter (λ o, String.prefix "$accept" (op_name o) = true) protocol_operations)
  ∧ filter (λ o, String.prefix "$notify" (op_name o) = true) protocol_operations = []
  ∧ filter (λ o, op_result o ≠ Void)
           (filter (λ o, accept_notify_style (op_name o) = true) protocol_operations)
    = [Operation "$onInputBoxValueChange"
         [("sourceControlHandle", "number"); ("value", "string")] (TPromise "void")]
  ∧ declared_by "$onInputBoxValueChange" protocol_shapes = ["ExtHostSCMShape"]
  ∧ Forall (λ o, (op_result o = Void ∧ surfaces o Failed = None)
                 ∨ (op_name o = "$onInputBoxValueChange"
                    ∧ surfaces o Failed = Some Failed))
           (filter (λ o, accept_notify_style (op_name o) = true) protocol_operations)
  ∧ map op_name (filter (λ o, accept_notify_style (op_name o) = true) protocol_operations)
    = ["$onDidChange"; "$onVirtualDocumentChange"; "$onUnexpectedError";
       "$onDidAddFileSystemRoot"; "$onFileSystemChange"; "$onExtensionActivated";
       "$onExtensionActivationFailed"; "$acceptConfigurationChanged";
       "$acceptDebugSessionStarted"; "$acceptDebugSessionTerminated";
       "$acceptDebugSessionActiveChanged"; "$acceptDebugSessionCustomEvent";
       "$acceptDocumentsAndEditorsDelta"; "$acceptModelModeChanged";
       "$acceptModelSaved"; "$acceptDirtyStateChanged"; "$acceptModelChanged";
       "$acceptOptionsChanged"; "$acceptSelectionsChanged";
       "$acceptEditorPositionData"; "$onFileEvent"; "$onGarbageCollection";
       "$onItemSelected"; "$acceptTerminalClosed"; "$acceptTerminalProcessId";
       "$onInputBoxValueChange"; "$acceptWorkspaceData";
       "$onDidChangeWindowFocus"].
Proof.
  split_and!.
  - apply (bool_decide_unpack _). vm_compute. exact I.
  - vm_compute. reflexivity.
  - vm_compute. reflexivity.
  - vm_compute. reflexivity.
  - apply (bool_decide_unpack _). vm_compute. exact I.
  - vm_compute. reflexivity.
Qed.

(** The operations named in event style, [$on..], are not all without a
    result: [ExtHostSCMShape.$onInputBoxValueChange] returns a promise. *)
Lemma on_operations_with_result :
  filter (λ o, bool_decide (op_result o ≠ Void))
         (filter (λ o, String.prefix "$on" (op_name o) = true) protocol_operations)
  = [Operation "$onInputBoxValueChange"
       [("sourceControlHandle", "number"); ("value", "string")] (TPromise "void")]
  ∧ length (filter (λ o, String.prefix "$on" (op_name o) = true) protocol_operations)
    = 12%nat.
Proof. split; vm_compute; reflexivity. Qed.

(** C6: the names registered in [MainContext] are pairwise distinct, so are
    those registered in [ExtHostContext], and no name is registered on both
    sides. *)
Theorem proxy_names_unique_and_disjoint :
  NoDup (names_of MainContext)
  ∧ NoDup (names_of ExtHostContext)
  ∧ Forall (λ nm, nm ∉ names_of ExtHostContext) (names_of MainContext).
Proof.
  assert (NoDup (names_of MainContext ++ names_of ExtHostContext)) as H.
  { apply (bool_decide_unpack _). vm_compute. exact I. }
  apply NoDup_app in H as (? & ? & ?). split_and!; [done..|].
  by apply Forall_forall.
Qed.

(** The side of an identifier is that of its table. *)
Lemma context_sides :
  Forall (λ e, origin e.2 = Host) MainContext
  ∧ Forall (λ e, origin e.2 = Extension) ExtHostContext.
Proof. split; repeat (constructor; [reflexivity|]); constructor. Qed.

(** C8: the heap-service shape declares the one operation
    [$onGarbageCollection(ids: number[]): void], it is the only operation of
    the protocol that speaks of garbage collection, and the heap-service
    shape is the only shape that does. *)
Theorem gc_channel_single_notification :
  operations ExtHostHeapServiceShape
  = [Operation "$onGarbageCollection" [("ids", "number[]")] Void]
  ∧ filter (λ o, gc_related o = true) protocol_operations
    = [Operation "$onGarbageCollection" [("ids", "number[]")] Void]
  ∧ map shape_name
        (filter (λ s, existsb gc_related (operations s) = true
                      ∨ mentions "Heap" (shape_name s) = true) protocol_shapes)
    = ["ExtHostHeapServiceShape"].
Proof. split_and!; vm_compute; reflexivity. Qed.

(** C9: the registered name differs from the table key for exactly two
    entries, [MainThreadDialogs] (registered as [MainThreadDiaglogs]) and
    [ExtHostHeapService] (registered as [ExtHostHeapMonitor]); resolution by
    name finds these two under the registered string and not under the
    key. *)
Theorem registered_name_differs_from_key :
  map (λ e, (e.1, name e.2))
      (filter (λ e, e.1 ≠ name e.2) (MainContext ++ ExtHostContext))
  = [("MainThreadDialogs", "MainThreadDiaglogs");
     ("ExtHostHeapService", "ExtHostHeapMonitor")]
  ∧ Forall (λ e, e.1 = name e.2 ∨ e.1 = "MainThreadDialogs" ∨ e.1 = "ExtHostHeapService")
           (MainContext ++ ExtHostContext)
  ∧ resolve MainContext "MainThreadDialogs" = None
  ∧ resolve MainContext "MainThreadDiaglogs"
    = Some (createMainId MainThreadDiaglogsShape "MainThreadDiaglogs")
  ∧ resolve ExtHostContext "ExtHostHeapService" = None
  ∧ resolve ExtHostContext "ExtHostHeapMonitor"
    = Some (createExtId ExtHostHeapServiceShape "ExtHostHeapMonitor").
Proof.
  split_and!; try (vm_compute; reflexivity).
  repeat (constructor;
          [first [left; reflexivity | right; left; reflexivity
                 | right; right; reflexivity]|]).
  constructor.
Qed.

End protocol.

(** ** The delta synchronizer *)

Section delta.
Import Delta.
Context {A : Type}.
Implicit Types (m : gmap string A) (ids : list string) (key : A → string).





End delta.

Section delta_domain.
Import Delta.
Context {A : Type}.
Implicit Types (m : gmap string A) (ids : list string) (key : A → string).


End delta_domain.

Section apply_delta.
Import Delta.





(** A document [a.ts], once clean and once dirty, the shadow that holds the
    clean one, and an editor on the document. *)
Let doc (dirty : bool) : IModelAddedData :=
  {| url := "file:///a.ts"; versionId := 1; lines := ["x"];
     EOL := String (Ascii.ascii_of_nat 10) "";
     modeId := "typescript"; isDirty := dirty |}.


Let editor : ITextEditorAddData :=
  {| id := "e1"; document := "file:///a.ts";
     options := {| tabSize := 4; insertSpaces := true;
                   cursorStyle := 1; lineNumbers := 1 |};
     selections := []; editorPosition := 0 |}.




(** The bootstrap scenario: a delta that adds document [a.ts] and an editor
    on it, and makes that editor active, brings the empty shadow to hold
    both with the editor active, as often as it is replayed; an editor on a
    document that is neither held nor added is refused. *)
Lemma applyDelta_bootstrap :
  let d := {| removedDocuments := None; addedDocuments := Some [doc false];
              removedEditors := None; addedEditors := Some [editor];
              newActiveEditor := Some "e1" |} in
  applyDelta d unsynced
  = Some (Shadow {["file:///a.ts" := doc false]} {["e1" := editor]} (Some "e1"))
  ∧ replay d unsynced = applyDelta d unsynced
  ∧ applyDelta {| removedDocuments := None; addedDocuments := None;
                  removedEditors := None; addedEditors := Some [editor];
                  newActiveEditor := None |} unsynced = None.
Proof. split_and!; vm_compute; reflexivity. Qed.

End apply_delta.

(** ** Result sets *)

Section result_sets.
Import Protocol Suggest.

Lemma elem_of_provided items a s :
  s ∈ suggestions (provideCompletionItems items a).1 →
  ∃ (i : nat) item, items !! i = Some item ∧ suggestion s = item
                    ∧ _id s = Z.of_nat i ∧ _parentId s = idPool a.
Proof.
  simpl. intros (i & item & -> & Hi)%elem_of_lookup_imap. simpl. by exists i, item.
Qed.

(** C7: every suggestion of a result set carries the [_id] of the set as
    its [_parentId]; each can be resolved while the set is held, and after
    one call of [releaseCompletionItems] with the parent id none of them
    can. Both release operations of the language-features shape are
    declared with a single id, not with one id per item. *)
Theorem result_set_released_in_one_call items a :
  let r := (provideCompletionItems items a).1 in
  let a' := (provideCompletionItems items a).2 in
  Forall (λ s, _parentId s = result_id r) (suggestions r)
  ∧ length (suggestions r) = length items
  ∧ Forall (λ s, resolveCompletionItem s a' = Some (suggestion s)) (suggestions r)
  ∧ Forall (λ s, resolveCompletionItem s (releaseCompletionItems (result_id r) a') = None)
           (suggestions r)
  ∧ filter (λ o, mentions "$release" (op_name o) = true)
           (operations ExtHostLanguageFeaturesShape)
    = [Operation "$releaseWorkspaceSymbols" [("handle", "number"); ("id", "number")] Void;
       Operation "$releaseCompletionItems" [("handle", "number"); ("id", "number")] Void].
Proof.
  intros r a'. split_and!.
  - apply Forall_forall. intros s (i & item & _ & _ & _ & ->)%elem_of_provided. done.
  - subst r. simpl. apply length_imap.
  - apply Forall_forall. intros s (i & item & Hi & Hs & Hid & Hp)%elem_of_provided.
    unfold resolveCompletionItem. rewrite Hid, Hp.
    destruct (Z.ltb_spec (Z.of_nat i) 0) as [|_]; [lia|].
    subst a'. simpl. rewrite lookup_insert_eq. simpl. by rewrite Nat2Z.id, Hs.
  - apply Forall_forall. intros s (i & item & Hi & Hs & Hid & Hp)%elem_of_provided.
    unfold resolveCompletionItem. rewrite Hid, Hp.
    destruct (Z.ltb_spec (Z.of_nat i) 0) as [|_]; [done|].
    subst r a'. simpl. by rewrite lookup_delete_eq.
  - vm_compute. reflexivity.
Qed.

(** A set of two items, provided by a new adapter and released. *)
Lemma result_set_example :
  let items := [{| label := "foo" |}; {| label := "bar" |}] in
  let '(r, a) := provideCompletionItems items (Adapter ∅ 0) in
  map (λ s, (_id s, _parentId s)) (suggestions r) = [(0, 0); (1, 0)]
  ∧ map (λ s, resolveCompletionItem s a) (suggestions r)
    = [Some {| label := "foo" |}; Some {| label := "bar" |}]
  ∧ map (λ s, resolveCompletionItem s (releaseCompletionItems (result_id r) a))
        (suggestions r)
    = [None; None].
Proof. split_and!; vm_compute; reflexivity. Qed.

End result_sets.

(** * Further properties of the identity helpers *)

(** ** ObjectIdentifier.mixin: when it returns and when it throws *)

Section object_identifier_more.
Import ObjectIdentifier.

(** The descriptor [{ value: id, enumerable: true }] of [mixin]. *)
Lemma defineProperty_ident_cases o id :
  match props o !! name with
  | None =>
      if extensible o
      then defineProperty o name (Descriptor (Some (number id)) None (Some true) None)
           = Ok (Obj (<[name := Property (number id) false true false]> (props o))
                     (extensible o))
      else defineProperty o name (Descriptor (Some (number id)) None (Some true) None)
           = TypeError
  | Some p =>
      if p_configurable p
         || (p_enumerable p && (p_writable p || bool_decide (p_value p = number id)))
      then defineProperty o name (Descriptor (Some (number id)) None (Some true) None)
           = Ok (Obj (<[name := Property (number id) (p_writable p) true (p_configurable p)]>
                        (props o))
                     (extensible o))
      else defineProperty o name (Descriptor (Some (number id)) None (Some true) None)
           = TypeError
  end.
Proof.
  unfold defineProperty. destruct (props o !! name) as [[v w e c]|]; simpl.
  - destruct c, e, w; simpl; try reflexivity.
    destruct (decide (v = number id)) as [->|Hne].
    + rewrite bool_decide_eq_true_2 by done.
      rewrite bool_decide_eq_false_2; [done|]. intros H. by apply H.
    + rewrite bool_decide_eq_false_2 by done.
      by rewrite bool_decide_eq_true_2 by congruence.
  - by destruct (extensible o).
Qed.

(** X1: [ObjectIdentifier.mixin(obj, id)] either returns [obj] or throws a
    TypeError that leaves the heap as it was. It returns exactly when [obj]
    is an object that is extensible and has no [$ident], or whose [$ident] is
    configurable, or is enumerable and either writable or already equal to
    [id]. *)
Theorem ObjectIdentifier_mixin_returns_iff obj id (h : heap) :
  ((∃ h', mixin obj id h = (Ok obj, h')) ∨ mixin obj id h = (TypeError, h))
  ∧ ((∃ h', mixin obj id h = (Ok obj, h')) ↔
     ∃ o, h !! obj = Some o ∧
          match props o !! name with
          | None => extensible o = true
          | Some p =>
              p_configurable p = true
              ∨ (p_enumerable p = true
                 ∧ (p_writable p = true ∨ p_value p = number id))
          end).
Proof.
  unfold mixin, update. destruct (h !! obj) as [o|] eqn:Ho.
  - pose proof (defineProperty_ident_cases o id) as Hc.
    destruct (props o !! name) as [p|] eqn:Hk.
    + destruct (p_configurable p) eqn:Hconf; simpl in Hc.
      { rewrite Hc. split; [left; by eexists|]. split; [|by eexists].
        intros _. exists o. rewrite Hk. split; [done|]. by left. }
      destruct (p_enumerable p) eqn:Hen; simpl in Hc.
      2:{ rewrite Hc. split; [by right|]. split; [by intros [? [=]]|].
          intros (o' & [= <-] & Hp). rewrite Hk in Hp.
          destruct Hp as [Hp|[Hp _]]; congruence. }
      destruct (p_writable p) eqn:Hw; simpl in Hc.
      { rewrite Hc. split; [left; by eexists|]. split; [|by eexists].
        intros _. exists o. rewrite Hk. split; [done|]. right. split; [done|by left]. }
      destruct (decide (p_value p = number id)) as [Hv|Hv].
      * rewrite bool_decide_eq_true_2 in Hc by done. rewrite Hc.
        split; [left; by eexists|]. split; [|by eexists].
        intros _. exists o. rewrite Hk. split; [done|]. right. split; [done|by right].
      * rewrite bool_decide_eq_false_2 in Hc by done. rewrite Hc.
        split; [by right|]. split; [by intros [? [=]]|].
        intros (o' & [= <-] & Hp). rewrite Hk in Hp.
        destruct Hp as [Hp|[_ [Hp|Hp]]]; congruence.
    + destruct (extensible o) eqn:He; rewrite Hc.
      * split; [left; by eexists|]. split; [|by eexists].
        intros _. exists o. by rewrite Hk.
      * split; [by right|]. split; [by intros [? [=]]|].
        intros (o' & [= <-] & Hp). rewrite Hk in Hp. congruence.
  - split; [by right|]. split; [by intros [? [=]]|]. by intros (o & [=] & _).
Qed.

(** Two objects of the examples: a plain one, and one that arrived with a
    plain [$ident], as [JSON.parse] builds it. *)
Let plain_obj : obj := Obj {["label" := plain (str "f")]} true.
Let parsed_obj : obj := Obj {["$ident" := plain (number 3)]} true.

(** X2: the identity is write-once on an object that had no [$ident]. After
    [ObjectIdentifier.mixin(obj, id)] returned on such an object, stamping it
    again with the same [id] returns and changes nothing, and stamping it
    with another id throws and leaves the first identity in place. *)
Theorem ObjectIdentifier_mixin_write_once obj id id' (h : heap) o r h' :
  h !! obj = Some o → props o !! name = None →
  mixin obj id h = (Ok r, h') →
  mixin obj id h' = (Ok obj, h')
  ∧ (id' ≠ id → mixin obj id' h' = (TypeError, h') ∧ of_ obj h' = number id).
Proof.
  intros Ho Hk Hm. unfold mixin, update in Hm. rewrite Ho in Hm.
  pose proof (defineProperty_ident_cases o id) as Hc. rewrite Hk in Hc.
  destruct (extensible o) eqn:He; rewrite Hc in Hm; [|discriminate].
  injection Hm as <- <-.
  set (o' := Obj (<[name := Property (number id) false true false]> (props o)) true).
  assert (props o' !! name = Some (Property (number id) false true false)) as Hk'
    by apply lookup_insert_eq.
  split.
  - unfold mixin, update. rewrite lookup_insert_eq.
    pose proof (defineProperty_ident_cases o' id) as Hc'. rewrite Hk' in Hc'.
    simpl in Hc'. rewrite bool_decide_eq_true_2 in Hc' by done.
    rewrite Hc'. simpl. by rewrite insert_insert_eq, insert_insert_eq.
  - intros Hne. split.
    + unfold mixin, update. rewrite lookup_insert_eq.
      pose proof (defineProperty_ident_cases o' id') as Hc'. rewrite Hk' in Hc'.
      simpl in Hc'. rewrite bool_decide_eq_false_2 in Hc' by congruence.
      by rewrite Hc'.
    + unfold of_, read, get. by rewrite lookup_insert_eq, Hk'.
Qed.

Lemma ObjectIdentifier_mixin_write_once_witness :
  let h : heap := {[1%positive := plain_obj]} in
  mixin 1%positive 7 (mixin 1%positive 7 h).2 = (Ok 1%positive, (mixin 1%positive 7 h).2)
  ∧ mixin 1%positive 8 (mixin 1%positive 7 h).2 = (TypeError, (mixin 1%positive 7 h).2)
  ∧ of_ 1%positive (mixin 1%positive 7 h).2 = number 7.
Proof.
  intros h.
  assert (mixin 1%positive 7 h = (Ok 1%positive, (mixin 1%positive 7 h).2)) as Hm
    by (vm_compute; reflexivity).
  assert (h !! 1%positive = Some plain_obj) as Ho by (vm_compute; reflexivity).
  assert (props plain_obj !! name = None) as Hk by (vm_compute; reflexivity).
  destruct (ObjectIdentifier_mixin_write_once 1%positive 7 8 h plain_obj _ _ Ho Hk Hm)
    as [Hsame Hother].
  split; [exact Hsame|]. apply Hother. discriminate.
Defined.

(** X3: a configurable [$ident] is overwritten. On an object that already
    carries [$ident] as a configurable property (a plain property, as in an
    object built from JSON), [ObjectIdentifier.mixin] returns for every id: it
    replaces the value, makes the property enumerable and keeps it writable
    and configurable as it was, so that it can be stamped again with any other
    id. *)
Theorem ObjectIdentifier_mixin_overwrites_configurable obj id (h : heap) o p :
  h !! obj = Some o → props o !! name = Some p → p_configurable p = true →
  let o' := Obj (<[name := Property (number id) (p_writable p) true true]> (props o))
                (extensible o) in
  mixin obj id h = (Ok obj, <[obj := o']> h)
  ∧ of_ obj (<[obj := o']> h) = number id
  ∧ ∀ id', ∃ h'', mixin obj id' (<[obj := o']> h) = (Ok obj, h'')
                  ∧ of_ obj h'' = number id'.
Proof.
  intros Ho Hk Hconf o'.
  assert (∀ (h0 : heap) o0 p0 i,
            h0 !! obj = Some o0 → props o0 !! name = Some p0 → p_configurable p0 = true →
            mixin obj i h0
            = (Ok obj, <[obj := Obj (<[name := Property (number i) (p_writable p0) true true]>
                                       (props o0)) (extensible o0)]> h0)) as Hstep.
  { intros h0 o0 p0 i Ho0 Hk0 Hc0. unfold mixin, update. rewrite Ho0.
    pose proof (defineProperty_ident_cases o0 i) as Hc. rewrite Hk0, Hc0 in Hc.
    simpl in Hc. by rewrite Hc. }
  assert (∀ (h0 : heap) o0 i q,
            of_ obj (<[obj := Obj (<[name := Property (number i) q true true]> (props o0))
                                  (extensible o0)]> h0) = number i) as Hof.
  { intros. unfold of_, read. rewrite lookup_insert_eq. unfold get. simpl.
    by rewrite lookup_insert_eq. }
  split_and!.
  - by apply Hstep.
  - apply Hof.
  - intros id'. eexists. split.
    + apply (Hstep _ o' (Property (number id) (p_writable p) true true));
        [apply lookup_insert_eq|apply lookup_insert_eq|done].
    + apply Hof.
Qed.

Lemma ObjectIdentifier_mixin_overwrites_configurable_witness :
  let h : heap := {[1%positive := parsed_obj]} in
  of_ 1%positive h = number 3
  ∧ ∃ h', mixin 1%positive 7 h = (Ok 1%positive, h') ∧ of_ 1%positive h' = number 7.
Proof.
  intros h. split; [vm_compute; reflexivity|].
  assert (h !! 1%positive = Some parsed_obj) as Ho by (vm_compute; reflexivity).
  assert (props parsed_obj !! name = Some (plain (number 3))) as Hk
    by (vm_compute; reflexivity).
  destruct (ObjectIdentifier_mixin_overwrites_configurable 1%positive 7 h parsed_obj
              (plain (number 3)) Ho Hk eq_refl) as (Hm & Hof & _).
  eexists. split; [exact Hm|exact Hof].
Defined.

End object_identifier_more.


(** ** IdObject.mixin: frame, failure and the counter *)

Section id_object_more.
Import IdObject.

(** X4: when [IdObject.mixin(object)] returns, it returns [object] itself;
    no other object is touched; of [object], the extensibility and every
    property other than [_id] are unchanged; [_id] holds the counter value the
    call found and is writable, with the enumerability and configurability it
    had, or both when it is new, so that a new [_id] shows among the
    enumerated keys. *)
Theorem IdObject_mixin_frame o σ r σ' :
  mixin o σ = (Ok r, σ') →
  r = o
  ∧ (∀ o', o' ≠ o → objects σ' !! o' = objects σ !! o')
  ∧ ∃ ob ob',
      objects σ !! o = Some ob ∧ objects σ' !! o = Some ob'
      ∧ extensible ob' = extensible ob
      ∧ (∀ k, k ≠ "_id" → props ob' !! k = props ob !! k)
      ∧ props ob' !! "_id"
        = Some (Property (number (n σ)) true
                  (from_option p_enumerable true (props ob !! "_id"))
                  (from_option p_configurable true (props ob !! "_id")))
      ∧ (props ob !! "_id" = None → keys ob' = keys ob ∪ {["_id"]}).
Proof.
  intros Hm. pose proof (mixin_Ok _ _ _ _ Hm) as (-> & _ & ob & ob' & Ho & Ha & Hh).
  split; [done|]. split.
  - intros o' Hne. rewrite Hh. by apply lookup_insert_ne.
  - pose proof (assign_Ok _ _ _ _ Ha) as [Hp He].
    exists ob, ob'. split_and!; try done.
    + rewrite Hh. apply lookup_insert_eq.
    + intros k Hk. rewrite Hp. by apply lookup_insert_ne.
    + rewrite Hp. apply lookup_insert_eq.
    + intros Hnone. destruct ob' as [ps' e']. simpl in *. subst ps' e'.
      rewrite Hnone. simpl. by apply keys_insert_enumerable.
Qed.

Let fresh2 : state :=
  State {[1%positive := empty_obj;
          2%positive := Obj ∅ false]} n_init.

Lemma IdObject_mixin_frame_witness :
  ∃ ob', objects (mixin 1%positive fresh2).2 !! 1%positive = Some ob'
         ∧ keys ob' = keys empty_obj ∪ {["_id"]}.
Proof.
  assert (mixin 1%positive fresh2 = (Ok 1%positive, (mixin 1%positive fresh2).2)) as Hm
    by (vm_compute; reflexivity).
  destruct (IdObject_mixin_frame _ _ _ _ Hm)
    as (_ & _ & ob & ob' & Ho & Ho' & _ & _ & _ & Hkeys).
  exists ob'. split; [exact Ho'|].
  assert (objects fresh2 !! 1%positive = Some empty_obj) as Hl
    by (vm_compute; reflexivity).
  assert (Some ob = Some empty_obj) as [= ->] by exact (eq_trans (eq_sym Ho) Hl).
  apply Hkeys. reflexivity.
Defined.

(** X5: [IdObject.mixin(object)] returns exactly when [object] is an object
    that is extensible and has no [_id], or whose [_id] is writable;
    otherwise it throws, and then the heap is as before but the counter has
    advanced all the same: the id the failed call took is given to no
    object, and the next call that returns assigns the one after it. *)
Theorem IdObject_mixin_throws_after_counting o σ :
  ((∃ σ', mixin o σ = (Ok o, σ'))
   ∨ mixin o σ = (TypeError, State (objects σ) (increment (n σ))))
  ∧ ((∃ σ', mixin o σ = (Ok o, σ')) ↔
     ∃ ob, objects σ !! o = Some ob ∧
           match props ob !! "_id" with
           | None => extensible ob = true
           | Some p => p_writable p = true
           end)
  ∧ (∀ σ1 o2 r σ2,
       n σ < MAX_EXACT →
       mixin o σ = (TypeError, σ1) → mixin o2 σ1 = (Ok r, σ2) →
       _id o2 σ2 = number (n σ + 1)).
Proof.
  split_and!.
  - unfold mixin. destruct (update _ _ _); [left; by eexists|by right].
  - unfold mixin, update, assign. destruct (objects σ !! o) as [ob|] eqn:Ho.
    + destruct (props ob !! "_id") as [p|] eqn:Hk.
      * destruct (p_writable p) eqn:Hw.
        -- split; [|by eexists]. intros _. exists ob. by rewrite Hk.
        -- split; [by intros [? [=]]|]. intros (ob' & [= <-] & Hp).
           rewrite Hk in Hp. congruence.
      * destruct (extensible ob) eqn:He.
        -- split; [|by eexists]. intros _. exists ob. by rewrite Hk.
        -- split; [by intros [? [=]]|]. intros (ob' & [= <-] & Hp).
           rewrite Hk in Hp. congruence.
    + split; [by intros [? [=]]|]. by intros (ob & [=] & _).
  - intros σ1 o2 r σ2 Hn H1 H2.
    pose proof (mixin_Ok _ _ _ _ H2) as (-> & _).
    rewrite (mixin_id _ _ _ _ H2).
    assert (n σ1 = increment (n σ)) as ->.
    { pose proof (mixin_counter o σ) as Hc. by rewrite H1 in Hc. }
    by rewrite increment_exact.
Qed.

Lemma IdObject_mixin_throws_after_counting_witness :
  mixin 2%positive fresh2 = (TypeError, State (objects fresh2) 1)
  ∧ _id 1%positive (mixin 1%positive (mixin 2%positive fresh2).2).2 = number 1.
Proof.
  split; [vm_compute; reflexivity|].
  destruct (IdObject_mixin_throws_after_counting 2%positive fresh2) as (_ & _ & Hnext).
  apply (Hnext (mixin 2%positive fresh2).2 1%positive 1%positive
               (mixin 1%positive (mixin 2%positive fresh2).2).2).
  - vm_compute. reflexivity.
  - vm_compute. reflexivity.
  - vm_compute. reflexivity.
Defined.

(** X6: the counter after a run. From a counter within [2^53], a run of
    [k] calls leaves the counter at the smaller of the start value plus [k]
    and [2^53], whatever the calls were given and however they completed; so
    the counter never decreases and never leaves the range in which it is
    exact, and once at [2^53] it stays there. *)
Theorem IdObject_counter_after_run calls σ :
  n σ ≤ MAX_EXACT →
  n (run calls σ).2 = Z.min (n σ + Z.of_nat (length calls)) MAX_EXACT
  ∧ n σ ≤ n (run calls σ).2 ≤ MAX_EXACT.
Proof.
  revert σ. induction calls as [|o calls IH]; intros σ Hb.
  - simpl. lia.
  - rewrite run_cons. simpl length. simpl snd.
    assert (n (mixin o σ).2 ≤ MAX_EXACT ∧ n σ ≤ n (mixin o σ).2
            ∧ (n σ < MAX_EXACT → n (mixin o σ).2 = n σ + 1)
            ∧ (n σ = MAX_EXACT → n (mixin o σ).2 = MAX_EXACT)) as (H1 & H2 & H3 & H4).
    { rewrite mixin_counter. unfold increment.
      destruct (Z.ltb_spec (n σ) MAX_EXACT); lia. }
    destruct (IH (mixin o σ).2 H1) as [IH1 IH2]. rewrite IH1.
    destruct (Z.lt_ge_cases (n σ) MAX_EXACT) as [Hlt|Hge]; [rewrite H3 by done|]; lia.
Qed.

Lemma IdObject_counter_after_run_witness :
  n (run [1%positive; 2%positive; 1%positive] fresh2).2 = 3
  ∧ n (run [1%positive; 2%positive] (State ∅ (MAX_EXACT - 1))).2 = MAX_EXACT.
Proof.
  split.
  - refine (eq_trans (proj1 (IdObject_counter_after_run
                               [1%positive; 2%positive; 1%positive] fresh2 _)) _).
    + vm_compute. discriminate.
    + vm_compute. reflexivity.
  - refine (eq_trans (proj1 (IdObject_counter_after_run
                               [1%positive; 2%positive] (State ∅ (MAX_EXACT - 1)) _)) _).
    + vm_compute. discriminate.
    + vm_compute. reflexivity.
Defined.

Lemma stampable_step c o σ : stampable o σ → stampable o (mixin c σ).2.
Proof.
  intros Hs. destruct (decide (c = o)) as [->|Hne].
  - destruct (stampable_mixin o σ Hs) as [σ1 Hm]. rewrite Hm. simpl.
    by eapply mixin_stampable.
  - destruct Hs as (ob & p & Ho & Hp & Hw). exists ob, p. by rewrite mixin_other.
Qed.

Lemma stampable_run calls o σ : stampable o σ → stampable o (run calls σ).2.
Proof.
  revert σ. induction calls as [|c calls IH]; intros σ Hs; [done|].
  rewrite run_cons. simpl. by apply IH, stampable_step.
Qed.

(** X7: an object that was stamped can always be stamped again. After a
    call of [IdObject.mixin] on [object] has returned, and whatever calls
    follow, a further call on [object] returns as well and replaces its
    [_id] by the counter value it finds: the [_id] of an object is that of
    its last stamp, not of its first. *)
Theorem IdObject_mixin_restamps o σ r σ1 calls :
  mixin o σ = (Ok r, σ1) →
  ∃ σ2, mixin o (run calls σ1).2 = (Ok o, σ2)
        ∧ _id o σ2 = number (n (run calls σ1).2).
Proof.
  intros Hm. apply mixin_stampable in Hm.
  destruct (stampable_mixin o _ (stampable_run calls o σ1 Hm)) as [σ2 H2].
  exists σ2. split; [done|]. by eapply mixin_id.
Qed.

Lemma IdObject_mixin_restamps_witness :
  ∃ σ2, mixin 1%positive (run [2%positive; 1%positive] (mixin 1%positive fresh2).2).2
        = (Ok 1%positive, σ2)
        ∧ _id 1%positive σ2 = number 3.
Proof.
  assert (mixin 1%positive fresh2 = (Ok 1%positive, (mixin 1%positive fresh2).2)) as Hm
    by (vm_compute; reflexivity).
  destruct (IdObject_mixin_restamps _ _ _ _ [2%positive; 1%positive] Hm) as (σ2 & H2 & Hid).
  exists σ2. split; [exact H2|].
  refine (eq_trans Hid _). vm_compute. reflexivity.
Defined.

End id_object_more.


(** ** The two identities together *)

Section two_identities.

(** What [ObjectIdentifier.mixin] does to the heap, in one equation. *)
Lemma ObjectIdentifier_mixin_heap obj id (h : heap) :
  (ObjectIdentifier.mixin obj id h).2 = h
  ∨ ∃ o p, h !! obj = Some o
           ∧ (ObjectIdentifier.mixin obj id h).2
             = <[obj := Obj (<[ObjectIdentifier.name := p]> (props o)) (extensible o)]> h.
Proof.
  unfold ObjectIdentifier.mixin, update. destruct (h !! obj) as [o|] eqn:Ho; [|by left].
  destruct (defineProperty _ _ _) as [o'|] eqn:Hd; [|by left].
  right. apply defineProperty_Ok in Hd as [Hp He].
  exists o. eexists. split; [done|]. simpl. destruct o' as [ps e]. simpl in *.
  by rewrite Hp, He.
Qed.

Lemma IdObject_mixin_heap o σ :
  IdObject.objects (IdObject.mixin o σ).2 = IdObject.objects σ
  ∨ ∃ ob p, IdObject.objects σ !! o = Some ob
            ∧ IdObject.objects (IdObject.mixin o σ).2
              = <[o := Obj (<["_id" := p]> (props ob)) (extensible ob)]> (IdObject.objects σ).
Proof.
  destruct (IdObject.mixin o σ) as [[r|] σ'] eqn:Hm; simpl.
  - right. apply mixin_Ok in Hm as (_ & _ & ob & ob' & Ho & Ha & ->).
    apply assign_Ok in Ha as [Hp He]. exists ob. eexists. split; [done|].
    destruct ob' as [ps e]. simpl in *. by rewrite Hp, He.
  - left. by eapply mixin_TypeError.
Qed.

(** X8: the two identities do not interfere. [IdObject.mixin] changes the
    [$ident] of no object, its own argument included, and
    [ObjectIdentifier.mixin] changes the [_id] of no object; either leaves
    both identities of every other object as they were. *)
Theorem identities_do_not_interfere :
  (∀ o o' σ,
     ObjectIdentifier.of_ o' (IdObject.objects (IdObject.mixin o σ).2)
     = ObjectIdentifier.of_ o' (IdObject.objects σ))
  ∧ (∀ o o' id (h : heap) k,
       IdObject._id o' (IdObject.State (ObjectIdentifier.mixin o id h).2 k)
       = IdObject._id o' (IdObject.State h k))
  ∧ (∀ o o' σ, o' ≠ o →
       IdObject._id o' (IdObject.mixin o σ).2 = IdObject._id o' σ)
  ∧ (∀ o o' id (h : heap), o' ≠ o →
       ObjectIdentifier.of_ o' (ObjectIdentifier.mixin o id h).2
       = ObjectIdentifier.of_ o' h).
Proof.
  split_and!.
  - intros o o' σ. unfold ObjectIdentifier.of_, read.
    destruct (IdObject_mixin_heap o σ) as [->|(ob & p & Ho & ->)]; [done|].
    destruct (decide (o' = o)) as [->|Hne].
    + rewrite lookup_insert_eq, Ho. unfold get. simpl.
      by rewrite lookup_insert_ne.
    + by rewrite lookup_insert_ne.
  - intros o o' id h k. unfold IdObject._id, read. simpl.
    destruct (ObjectIdentifier_mixin_heap o id h) as [->|(ob & p & Ho & ->)]; [done|].
    destruct (decide (o' = o)) as [->|Hne].
    + rewrite lookup_insert_eq, Ho. unfold get. simpl.
      by rewrite lookup_insert_ne.
    + by rewrite lookup_insert_ne.
  - intros o o' σ Hne. unfold IdObject._id, read. by rewrite mixin_other.
  - intros o o' id h Hne. unfold ObjectIdentifier.of_, read.
    destruct (ObjectIdentifier_mixin_heap o id h) as [->|(ob & p & Ho & ->)]; [done|].
    by rewrite lookup_insert_ne.
Qed.

Lemma identities_do_not_interfere_witness :
  let h : heap := {[1%positive := empty_obj; 2%positive := empty_obj]} in
  IdObject._id 2%positive (IdObject.mixin 1%positive (IdObject.State h 0)).2
  = IdObject._id 2%positive (IdObject.State h 0)
  ∧ ObjectIdentifier.of_ 2%positive (ObjectIdentifier.mixin 1%positive 7 h).2
    = ObjectIdentifier.of_ 2%positive h.
Proof.
  intros h. destruct identities_do_not_interfere as (_ & _ & Hid & Hof).
  split; [apply Hid|apply Hof]; discriminate.
Defined.

(** The outcome of a definition or of an assignment on property [k] is
    decided by the slot [k] and the extensibility of the object. *)
Lemma defineProperty_slot o k d :
  ∃ res : option property,
    ∀ o2, props o2 !! k = props o !! k → extensible o2 = extensible o →
          defineProperty o2 k d
          = match res with
            | Some p => Ok (Obj (<[k := p]> (props o2)) (extensible o2))
            | None => TypeError
            end.
Proof.
  destruct (defineProperty o k d) as [o'|] eqn:Hd.
  - exists (Some (apply_descriptor d
                    (default (Property undefined false false false) (props o !! k)))).
    intros o2 H1 H2. unfold defineProperty in *. rewrite H1, H2.
    destruct (props o !! k) as [cur|]; simpl in *.
    + repeat case_match; try discriminate; done.
    + by destruct (extensible o).
  - exists None. intros o2 H1 H2. unfold defineProperty in *. rewrite H1, H2.
    destruct (props o !! k) as [cur|]; simpl in *.
    + repeat case_match; try discriminate; done.
    + by destruct (extensible o).
Qed.

Lemma assign_slot o k v :
  ∃ res : option property,
    ∀ o2, props o2 !! k = props o !! k → extensible o2 = extensible o →
          assign o2 k v
          = match res with
            | Some p => Ok (Obj (<[k := p]> (props o2)) (extensible o2))
            | None => TypeError
            end.
Proof.
  destruct (assign o k v) as [o'|] eqn:Ha.
  - exists (Some (Property v true (from_option p_enumerable true (props o !! k))
                    (from_option p_configurable true (props o !! k)))).
    intros o2 H1 H2. unfold assign in *. rewrite H1, H2.
    destruct (props o !! k) as [p|]; simpl in *.
    + by destruct (p_writable p).
    + by destruct (extensible o).
  - exists None. intros o2 H1 H2. unfold assign in *. rewrite H1, H2.
    destruct (props o !! k) as [p|]; simpl in *.
    + by destruct (p_writable p).
    + by destruct (extensible o).
Qed.

(** X9: the two stamps commute. Stamping [o1] with
    [ObjectIdentifier.mixin] and [o2] with [IdObject.mixin], the same object
    or not, gives in either order the same completions and the same counter,
    and leaves the same objects, each with the same extensibility and, name
    by name, the same properties with the same values and attributes. The
    order in which the keys of an object are enumerated is not covered: on an
    object that both calls stamp it follows the order of the calls. *)
Theorem mixins_commute o1 id o2 (h : heap) k :
  let a := ObjectIdentifier.mixin o1 id h in
  let b := IdObject.mixin o2 (IdObject.State a.2 k) in
  let b' := IdObject.mixin o2 (IdObject.State h k) in
  let a' := ObjectIdentifier.mixin o1 id (IdObject.objects b'.2) in
  a'.1 = a.1 ∧ b'.1 = b.1
  ∧ IdObject.n b'.2 = IdObject.n b.2
  ∧ dom a'.2 = dom (IdObject.objects b.2)
  ∧ ∀ l ob ob',
      a'.2 !! l = Some ob → IdObject.objects b.2 !! l = Some ob' →
      extensible ob = extensible ob'
      ∧ ∀ key, props ob !! key = props ob' !! key.
Proof.
  intros a b b' a'.
  assert (a'.1 = a.1 ∧ b'.1 = b.1 ∧ a'.2 = IdObject.objects b.2
          ∧ IdObject.n b'.2 = IdObject.n b.2) as (H1 & H2 & H3 & H4).
  { subst a b b' a'.
    unfold ObjectIdentifier.mixin, IdObject.mixin, update. simpl.
    destruct (decide (o1 = o2)) as [->|Hne].
    - destruct (h !! o2) as [ob|] eqn:Ho; simpl; [|by rewrite Ho].
      destruct (defineProperty_slot ob ObjectIdentifier.name
                  (Descriptor (Some (number id)) None (Some true) None)) as [rd Hd].
      destruct (assign_slot ob "_id" (number k)) as [ra Ha].
      rewrite (Hd ob), (Ha ob) by done.
      destruct rd as [pd|], ra as [pa|]; simpl;
        rewrite ?lookup_insert_eq, ?Ho; simpl.
      + rewrite Ha, Hd by (by simpl; rewrite ?lookup_insert_ne). simpl.
        rewrite ?lookup_insert_eq, !insert_insert_eq.
        by rewrite (insert_insert_ne (props ob) ObjectIdentifier.name "_id").
      + rewrite Ha by (by simpl; rewrite ?lookup_insert_ne). simpl.
        by rewrite (Hd ob).
      + rewrite ?(Ha ob) by done. simpl. rewrite ?lookup_insert_eq.
        by rewrite Hd by (by simpl; rewrite ?lookup_insert_ne).
      + by rewrite (Ha ob), (Hd ob).
    - destruct (h !! o1) as [ob1|] eqn:Ho1, (h !! o2) as [ob2|] eqn:Ho2; simpl.
      + destruct (defineProperty ob1 _ _) as [ob1'|] eqn:Hd,
          (assign ob2 _ _) as [ob2'|] eqn:Ha; simpl;
          rewrite ?lookup_insert_ne, ?Ho1, ?Ho2, ?Hd, ?Ha by done; simpl;
          rewrite ?lookup_insert_ne, ?Ho1, ?Ho2, ?Hd, ?Ha by done; simpl; try done.
        by rewrite insert_insert_ne.
      + destruct (defineProperty ob1 _ _) as [ob1'|] eqn:Hd; simpl;
          rewrite ?lookup_insert_ne, ?Ho1, ?Ho2, ?Hd by done; simpl; done.
      + destruct (assign ob2 _ _) as [ob2'|] eqn:Ha; simpl;
          rewrite ?lookup_insert_ne, ?Ho1, ?Ho2, ?Ha by done; simpl; done.
      + by rewrite ?Ho1, ?Ho2. }
  split_and!; [done..| |].
  - by rewrite H3.
  - intros l ob ob' Hl Hl'. rewrite H3, Hl' in Hl. by injection Hl as ->.
Qed.

Lemma mixins_commute_witness :
  let h : heap := {[1%positive := empty_obj]} in
  let first := (IdObject.mixin 1%positive
                  (IdObject.State (ObjectIdentifier.mixin 1%positive 7 h).2 0)).2 in
  let second := (ObjectIdentifier.mixin 1%positive 7
                   (IdObject.objects (IdObject.mixin 1%positive (IdObject.State h 0)).2)).2 in
  ∃ ob ob', second !! 1%positive = Some ob
            ∧ IdObject.objects first !! 1%positive = Some ob'
            ∧ props ob !! "$ident" = props ob' !! "$ident"
            ∧ props ob !! "_id" = props ob' !! "_id".
Proof.
  intros h first second.
  destruct (mixins_commute 1%positive 7 1%positive h 0) as (_ & _ & _ & _ & Hsame).
  assert (∃ ob, second !! 1%positive = Some ob) as [ob Hob]
    by (eexists; vm_compute; reflexivity).
  assert (∃ ob', IdObject.objects first !! 1%positive = Some ob') as [ob' Hob']
    by (eexists; vm_compute; reflexivity).
  exists ob, ob'. destruct (Hsame _ _ _ Hob Hob') as [_ Hprops].
  split_and!; [exact Hob|exact Hob'|apply Hprops|apply Hprops].
Defined.

End two_identities.


(** * Further properties of the declared protocol *)

Section protocol_more.
Import Protocol.

(** X10: every operation the protocol declares is named with a leading [$],
    and no shape declares two operations of one name: within a shape an
    operation is identified by its name. *)
Theorem operations_dollar_prefixed_and_distinct :
  Forall (λ o, String.prefix "$" (op_name o) = true) protocol_operations
  ∧ Forall (λ s, NoDup (map op_name (operations s))) protocol_shapes.
Proof. split; apply (bool_decide_unpack _); vm_compute; exact I. Qed.

(** X11: across shapes an operation name does not identify an operation on
    the main side: [$dispose], [$clear] and [$show] are each declared by more
    than one main-thread shape, with different parameters, and every other
    name by one shape only. On the extension-host side all names differ. *)
Theorem operation_names_shared_between_shapes :
  declared_by "$dispose" (shapes_of MainContext)
  = ["MainThreadOutputServiceShape"; "MainThreadStatusBarShape";
     "MainThreadTerminalServiceShape"]
  ∧ declared_by "$clear" (shapes_of MainContext)
    = ["MainThreadDiagnosticsShape"; "MainThreadOutputServiceShape"]
  ∧ declared_by "$show" (shapes_of MainContext)
    = ["MainThreadQuickOpenShape"; "MainThreadTerminalServiceShape"]
  ∧ Forall (λ o, length (declared_by (op_name o) (shapes_of MainContext)) = 1%nat
                 ∨ op_name o ∈ ["$dispose"; "$clear"; "$show"])
           (flat_map operations (shapes_of MainContext))
  ∧ NoDup (map op_name (flat_map operations (shapes_of ExtHostContext))).
Proof.
  split_and!.
  - vm_compute. reflexivity.
  - vm_compute. reflexivity.
  - vm_compute. reflexivity.
  - apply (bool_decide_unpack _). vm_compute. exact I.
  - apply (bool_decide_unpack _). vm_compute. exact I.
Qed.

(** X12: each table entry binds the shape named after its key, the key
    followed by [Shape], with the one exception of [MainThreadDialogs], bound
    to [MainThreadDiaglogsShape]; no shape is bound twice; and every key and
    every registered name of [MainContext] starts with [MainThread], every
    one of [ExtHostContext] with [ExtHost]. *)
Theorem shapes_bound_by_key :
  Forall (λ e, shape_name (T e.2) = e.1 +:+ "Shape"
               ∨ (e.1 = "MainThreadDialogs"
                  ∧ shape_name (T e.2) = "MainThreadDiaglogsShape"))
         (MainContext ++ ExtHostContext)
  ∧ NoDup (map shape_name protocol_shapes)
  ∧ Forall (λ e, String.prefix "MainThread" e.1 = true
                 ∧ String.prefix "MainThread" (name e.2) = true) MainContext
  ∧ Forall (λ e, String.prefix "ExtHost" e.1 = true
                 ∧ String.prefix "ExtHost" (name e.2) = true) ExtHostContext.
Proof.
  split_and!; apply (bool_decide_unpack _); vm_compute; exact I.
Qed.
End protocol_more.

